(** * vue3-learn: the shared [makeMap] helper, the compiler-core node
    catalogue and the package entry modules.

    Conventions of the embedding.
    - A JavaScript string is a sequence of UTF-16 code units.  The strings of
      this development are Rocq [string]s, i.e. sequences of code units below
      256 (the Basic Latin and Latin-1 blocks); on that range
      [String.prototype.toLowerCase] is the unit-by-unit map [toLowerCaseUnit].
    - A value that may be [undefined] is an [option]; a JavaScript object used
      as a dictionary is a [gmap] from strings.
    - A [number] that the code uses as an offset, a count or an index is a [Z]. *)

From Stdlib Require Import ZArith NArith Ascii String List Bool Lia.
From stdpp Require Import base option list gmap strings.

Open Scope string_scope.
Open Scope list_scope.

(** ** packages/shared/src/makeMap.ts *)

Module Shared.

(** [str.split(sep)] for a one-unit separator: the pieces between the
    occurrences of [sep], in order; never the empty list. *)
Fixpoint split (sep : ascii) (str : string) : list string :=
  match str with
  | EmptyString => [EmptyString]
  | String c rest =>
      if Ascii.eqb c sep then EmptyString :: split sep rest
      else match split sep rest with
           | [] => [String c EmptyString]
           | piece :: pieces => String c piece :: pieces
           end
  end.

(** [list.join(sep)], the inverse reading of [split]. *)
Fixpoint join (sep : ascii) (pieces : list string) : string :=
  match pieces with
  | [] => EmptyString
  | [piece] => piece
  | piece :: more => piece +:+ String sep (join sep more)
  end.

(** [s.includes(sep)] for a one-unit [sep]. *)
Fixpoint occurs (sep : ascii) (s : string) : bool :=
  match s with
  | EmptyString => false
  | String c rest => Ascii.eqb c sep || occurs sep rest
  end.

(** The number of units of [s] equal to [sep]. *)
Fixpoint countOf (sep : ascii) (s : string) : nat :=
  match s with
  | EmptyString => 0
  | String c rest => (if Ascii.eqb c sep then 1 else 0) + countOf sep rest
  end.

(** Lower-casing of one code unit below 256: A-Z, and the Latin-1 capitals
    U+00C0..U+00DE except the multiplication sign U+00D7, move up by 32. *)
Definition toLowerCaseUnit (c : ascii) : ascii :=
  let n := N_of_ascii c in
  if ((65 <=? n) && (n <=? 90))%N
     || ((192 <=? n) && (n <=? 222) && negb (n =? 215))%N
  then ascii_of_N (n + 32)
  else c.

Fixpoint toLowerCase (s : string) : string :=
  match s with
  | EmptyString => EmptyString
  | String c rest => String (toLowerCaseUnit c) (toLowerCase rest)
  end.

(** A unit is an upper-case letter when lower-casing changes it. *)
Definition isUpperCaseUnit (c : ascii) : bool :=
  negb (Ascii.eqb (toLowerCaseUnit c) c).

Fixpoint hasUpperCase (s : string) : bool :=
  match s with
  | EmptyString => false
  | String c rest => isUpperCaseUnit c || hasUpperCase rest
  end.

(** Truthiness of an optional boolean argument ([undefined] is falsy), and
    [!!v] for a value read out of a [Record<string, boolean>]. *)
Definition truthy (v : option bool) : bool :=
  match v with
  | Some b => b
  | None => false
  end.

(** The loop [for (let i = 0; i < list.length; i++) map[list[i]] = true]. *)
Definition fill (map : gmap string bool) (list : list string) : gmap string bool :=
  foldl (fun m entry => <[entry := true]> m) map list.

(** [makeMap(str, expectsLowerCase)]: [Object.create(null)] has no prototype,
    so the dictionary starts empty and holds the listed entries only. *)
Definition makeMap (str : string) (expectsLowerCase : option bool)
  : string -> bool :=
  let map : gmap string bool := ∅ in
  let list := split "," str in
  let map := fill map list in
  if truthy expectsLowerCase
  then fun val => truthy (map !! toLowerCase val)
  else fun val => truthy (map !! val).

End Shared.

(** ** packages/compiler-core/src/index.ts: the node catalogue *)

Module AST.

(** [export type Namespace = number] and [const enum Namespaces]. *)
Definition Namespace := Z.

Module Namespaces.
Definition HTML : Namespace := 0%Z.
End Namespaces.

(** [const enum NodeTypes]: the kind tag of a node; the enum numbers its
    members from 0 in this order. *)
Module NodeTypes.
Inductive t :=
| ROOT | ELEMENT | TEXT | COMMENT | SIMPLE_EXPRESSION | INTERPOLATION
| ATTRIBUTE | DIRECTIVE
| COMPOUND_EXPRESSION | IF | IF_BRANCH | FOR | TEXT_CALL
| VNODE_CALL | JS_CALL_EXPRESSION | JS_OBJECT_EXPRESSION | JS_PROPERTY
| JS_ARRAY_EXPRESSION | JS_FUNCTION_EXPRESSION | JS_CONDITIONAL_EXPRESSION
| JS_CACHE_EXPRESSION
| JS_BLOCK_STATEMENT | JS_TEMPLATE_LITERAL | JS_IF_STATEMENT
| JS_ASSIGNMENT_EXPRESSION | JS_SEQUENCE_EXPRESSION | JS_RETURN_STATEMENT.

(** The number the compiler inlines for a member. *)
Definition toNumber (k : t) : Z :=
  match k with
  | ROOT => 0 | ELEMENT => 1 | TEXT => 2 | COMMENT => 3
  | SIMPLE_EXPRESSION => 4 | INTERPOLATION => 5 | ATTRIBUTE => 6
  | DIRECTIVE => 7 | COMPOUND_EXPRESSION => 8 | IF => 9 | IF_BRANCH => 10
  | FOR => 11 | TEXT_CALL => 12 | VNODE_CALL => 13
  | JS_CALL_EXPRESSION => 14 | JS_OBJECT_EXPRESSION => 15
  | JS_PROPERTY => 16 | JS_ARRAY_EXPRESSION => 17
  | JS_FUNCTION_EXPRESSION => 18 | JS_CONDITIONAL_EXPRESSION => 19
  | JS_CACHE_EXPRESSION => 20 | JS_BLOCK_STATEMENT => 21
  | JS_TEMPLATE_LITERAL => 22 | JS_IF_STATEMENT => 23
  | JS_ASSIGNMENT_EXPRESSION => 24 | JS_SEQUENCE_EXPRESSION => 25
  | JS_RETURN_STATEMENT => 26
  end%Z.

(** [a === b] on kind tags. *)
Definition eqb (a b : t) : bool := (toNumber a =? toNumber b)%Z.

(** [k] is one of the kinds a union type lists. *)
Definition among (kinds : list t) (k : t) : bool := existsb (eqb k) kinds.
End NodeTypes.

(** [const enum ElementTypes]. *)
Module ElementTypes.
Inductive t := ELEMENT | COMPONENT | SLOT | TEMPLATE.
End ElementTypes.

(** [interface Position] and [interface SourceLocation]; [end] is spelt
    [end_]. *)
Record Position := { offset : Z; line : Z; column : Z }.

Record SourceLocation := { start : Position; end_ : Position; source : string }.

(** A span for a node with no source origin: empty, at the start of the
    file. *)
Definition synthetic : SourceLocation :=
  {| start := {| offset := 0; line := 1; column := 1 |};
     end_ := {| offset := 0; line := 1; column := 1 |};
     source := "" |}.

(** A JavaScript [symbol]: an identity with a description. *)
Record symbol := Symbol { description : string; identity : N }.

#[global] Instance symbol_eq_dec : EqDecision symbol.
Proof. solve_decision. Defined.

(** A slot of a field whose type mixes nodes with primitives or arrays:
    [string | symbol | Node | Node[]]. *)
Inductive Slot (A : Type) :=
| OfString (s : string)
| OfSymbol (s : symbol)
| OfNode (n : A)
| OfNodes (ns : list A).
Arguments OfString {A} s.
Arguments OfSymbol {A} s.
Arguments OfNode {A} n.
Arguments OfNodes {A} ns.

(** A field that holds one value or an array of values. *)
Inductive OneOrMany (A : Type) :=
| One (a : A)
| Many (l : list A).
Arguments One {A} a.
Arguments Many {A} l.

Section Catalogue.

#[local] Set Warnings "-register-all".

(** index.ts names [ForParseResult] and [ImportItem] without declaring
    them: they are parameters of the catalogue. *)
Context {ForParseResult ImportItem : Type}.

(** One constructor per interface that fixes a [type] tag.  Every interface
    extends [Node], so every constructor starts with the span [loc]; the tag
    is read back by [typeOf].  The four element interfaces share the tag
    [NodeTypes.ELEMENT] and are told apart by [tagType].  An optional field
    ([f?: T]) and a field of type [T | undefined] are both [option]s. *)
Inductive Node :=
| ElementNode (loc : SourceLocation) (ns : Namespace) (tag : string)
    (tagType : ElementTypes.t) (isSelfClosing : bool)
    (props : list Node) (children : list Node)
    (codegenNode : option Node) (ssrCodegenNode : option Node)
| TextNode (loc : SourceLocation) (content : string)
| CommentNode (loc : SourceLocation) (content : string)
| AttributeNode (loc : SourceLocation) (name : string) (value : option Node)
| DirectiveNode (loc : SourceLocation) (name : string)
    (exp : option Node) (arg : option Node) (modifiers : list string)
    (parseResult : option ForParseResult)
| SimpleExpressionNode (loc : SourceLocation) (content : string)
    (isStatic : bool) (isConstant : bool) (hoisted : option Node)
    (identifiers : option (list string)) (isRuntimeConstant : option bool)
| InterpolationNode (loc : SourceLocation) (content : Node)
| CompoundExpressionNode (loc : SourceLocation)
    (children : list (Slot Node)) (identifiers : option (list string))
| IfNode (loc : SourceLocation) (branches : list Node)
    (codegenNode : option Node)
| IfBranchNode (loc : SourceLocation) (condition : option Node)
    (children : list Node)
| ForNode (loc : SourceLocation) (source : Node)
    (valueAlias keyAlias objectIndexAlias : option Node)
    (parseResult : ForParseResult) (children : list Node)
    (codegenNode : option Node)
| TextCallNode (loc : SourceLocation) (content : Node) (codegenNode : Node)
| VNodeCall (loc : SourceLocation) (tag : Slot Node) (props : option Node)
    (children : option (OneOrMany Node))
    (patchFlag dynamicProps : option string) (directives : option Node)
    (isBlock isForBlock : bool)
| CallExpression (loc : SourceLocation) (callee : string + symbol)
    (arguments : list (Slot Node))
| ObjectExpression (loc : SourceLocation) (properties : list Node)
| Property (loc : SourceLocation) (key : Node) (value : Node)
| ArrayExpression (loc : SourceLocation) (elements : list (Slot Node))
| FunctionExpression (loc : SourceLocation)
    (params : option (OneOrMany (Slot Node)))
    (returns : option (OneOrMany Node)) (body : option Node)
    (newline : bool) (isSlot : bool)
| ConditionalExpression (loc : SourceLocation)
    (test consequent alternate : Node) (newline : bool)
| CacheExpression (loc : SourceLocation) (index : Z) (value : Node)
    (isVNode : bool)
| BlockStatement (loc : SourceLocation) (body : list Node)
| TemplateLiteral (loc : SourceLocation) (elements : list (Slot Node))
| IfStatement (loc : SourceLocation) (test : Node) (consequent : Node)
    (alternate : option Node)
| AssignmentExpression (loc : SourceLocation) (left : Node) (right : Node)
| SequenceExpression (loc : SourceLocation) (expressions : list Node)
| ReturnStatement (loc : SourceLocation) (returns : OneOrMany Node).

(** [interface RootNode].  A root is never a child, so it is a record over
    the catalogue rather than one more constructor. *)
Record RootNode := {
  loc : SourceLocation;
  children : list Node;
  helpers : list symbol;
  components : list string;
  directives : list string;
  hoists : list (option Node);
  imports : list ImportItem;
  cached : Z;
  temps : Z;
  ssrHelpers : option (list symbol);
  codegenNode : option Node
}.

(** *** What every node carries: [interface Node { type; loc }] *)

Definition typeOf (n : Node) : NodeTypes.t :=
  match n with
  | ElementNode _ _ _ _ _ _ _ _ _ => NodeTypes.ELEMENT
  | TextNode _ _ => NodeTypes.TEXT
  | CommentNode _ _ => NodeTypes.COMMENT
  | AttributeNode _ _ _ => NodeTypes.ATTRIBUTE
  | DirectiveNode _ _ _ _ _ _ => NodeTypes.DIRECTIVE
  | SimpleExpressionNode _ _ _ _ _ _ _ => NodeTypes.SIMPLE_EXPRESSION
  | InterpolationNode _ _ => NodeTypes.INTERPOLATION
  | CompoundExpressionNode _ _ _ => NodeTypes.COMPOUND_EXPRESSION
  | IfNode _ _ _ => NodeTypes.IF
  | IfBranchNode _ _ _ => NodeTypes.IF_BRANCH
  | ForNode _ _ _ _ _ _ _ _ => NodeTypes.FOR
  | TextCallNode _ _ _ => NodeTypes.TEXT_CALL
  | VNodeCall _ _ _ _ _ _ _ _ _ => NodeTypes.VNODE_CALL
  | CallExpression _ _ _ => NodeTypes.JS_CALL_EXPRESSION
  | ObjectExpression _ _ => NodeTypes.JS_OBJECT_EXPRESSION
  | Property _ _ _ => NodeTypes.JS_PROPERTY
  | ArrayExpression _ _ => NodeTypes.JS_ARRAY_EXPRESSION
  | FunctionExpression _ _ _ _ _ _ => NodeTypes.JS_FUNCTION_EXPRESSION
  | ConditionalExpression _ _ _ _ _ => NodeTypes.JS_CONDITIONAL_EXPRESSION
  | CacheExpression _ _ _ _ => NodeTypes.JS_CACHE_EXPRESSION
  | BlockStatement _ _ => NodeTypes.JS_BLOCK_STATEMENT
  | TemplateLiteral _ _ => NodeTypes.JS_TEMPLATE_LITERAL
  | IfStatement _ _ _ _ => NodeTypes.JS_IF_STATEMENT
  | AssignmentExpression _ _ _ => NodeTypes.JS_ASSIGNMENT_EXPRESSION
  | SequenceExpression _ _ => NodeTypes.JS_SEQUENCE_EXPRESSION
  | ReturnStatement _ _ => NodeTypes.JS_RETURN_STATEMENT
  end.

Definition locOf (n : Node) : SourceLocation :=
  match n with
  | ElementNode l _ _ _ _ _ _ _ _ | TextNode l _ | CommentNode l _
  | AttributeNode l _ _ | DirectiveNode l _ _ _ _ _
  | SimpleExpressionNode l _ _ _ _ _ _ | InterpolationNode l _
  | CompoundExpressionNode l _ _ | IfNode l _ _ | IfBranchNode l _ _
  | ForNode l _ _ _ _ _ _ _ | TextCallNode l _ _
  | VNodeCall l _ _ _ _ _ _ _ _ | CallExpression l _ _
  | ObjectExpression l _ | Property l _ _ | ArrayExpression l _
  | FunctionExpression l _ _ _ _ _ | ConditionalExpression l _ _ _ _
  | CacheExpression l _ _ _ | BlockStatement l _ | TemplateLiteral l _
  | IfStatement l _ _ _ | AssignmentExpression l _ _
  | SequenceExpression l _ | ReturnStatement l _ => l
  end.

(** The assignment [n.loc = l]. *)
Definition setLoc (l : SourceLocation) (n : Node) : Node :=
  match n with
  | ElementNode _ a b c d e f g h => ElementNode l a b c d e f g h
  | TextNode _ a => TextNode l a
  | CommentNode _ a => CommentNode l a
  | AttributeNode _ a b => AttributeNode l a b
  | DirectiveNode _ a b c d e => DirectiveNode l a b c d e
  | SimpleExpressionNode _ a b c d e f => SimpleExpressionNode l a b c d e f
  | InterpolationNode _ a => InterpolationNode l a
  | CompoundExpressionNode _ a b => CompoundExpressionNode l a b
  | IfNode _ a b => IfNode l a b
  | IfBranchNode _ a b => IfBranchNode l a b
  | ForNode _ a b c d e f g => ForNode l a b c d e f g
  | TextCallNode _ a b => TextCallNode l a b
  | VNodeCall _ a b c d e f g h => VNodeCall l a b c d e f g h
  | CallExpression _ a b => CallExpression l a b
  | ObjectExpression _ a => ObjectExpression l a
  | Property _ a b => Property l a b
  | ArrayExpression _ a => ArrayExpression l a
  | FunctionExpression _ a b c d e => FunctionExpression l a b c d e
  | ConditionalExpression _ a b c d => ConditionalExpression l a b c d
  | CacheExpression _ a b c => CacheExpression l a b c
  | BlockStatement _ a => BlockStatement l a
  | TemplateLiteral _ a => TemplateLiteral l a
  | IfStatement _ a b c => IfStatement l a b c
  | AssignmentExpression _ a b => AssignmentExpression l a b
  | SequenceExpression _ a => SequenceExpression l a
  | ReturnStatement _ a => ReturnStatement l a
  end.

(** A span of no width: start and end at the same offset. *)
Definition zeroWidth (l : SourceLocation) : bool :=
  (offset (start l) =? offset (end_ l))%Z.

(** [tagType] and [codegenNode] of an element ([None] on other kinds). *)
Definition tagTypeOf (n : Node) : option ElementTypes.t :=
  match n with
  | ElementNode _ _ _ tagType _ _ _ _ _ => Some tagType
  | _ => None
  end.

Definition elementCodegenNode (n : Node) : option Node :=
  match n with
  | ElementNode _ _ _ _ _ _ _ codegenNode _ => codegenNode
  | _ => None
  end.

(** The nodes a node holds directly in its fields, in field order. *)
Definition ofOption {A} (o : option A) : list A :=
  match o with
  | Some a => [a]
  | None => []
  end.

Definition ofSlot {A} (s : Slot A) : list A :=
  match s with
  | OfNode n => [n]
  | OfNodes ns => ns
  | OfString _ | OfSymbol _ => []
  end.

Definition ofOneOrMany {A} (m : OneOrMany A) : list A :=
  match m with
  | One a => [a]
  | Many l => l
  end.

Definition held (n : Node) : list Node :=
  match n with
  | ElementNode _ _ _ _ _ props children codegenNode ssrCodegenNode =>
      props ++ children ++ ofOption codegenNode ++ ofOption ssrCodegenNode
  | TextNode _ _ | CommentNode _ _ => []
  | AttributeNode _ _ value => ofOption value
  | DirectiveNode _ _ exp arg _ _ => ofOption exp ++ ofOption arg
  | SimpleExpressionNode _ _ _ _ hoisted _ _ => ofOption hoisted
  | InterpolationNode _ content => [content]
  | CompoundExpressionNode _ children _ => concat (map ofSlot children)
  | IfNode _ branches codegenNode => branches ++ ofOption codegenNode
  | IfBranchNode _ condition children => ofOption condition ++ children
  | ForNode _ source valueAlias keyAlias objectIndexAlias _ children
      codegenNode =>
      source :: ofOption valueAlias ++ ofOption keyAlias
        ++ ofOption objectIndexAlias ++ children ++ ofOption codegenNode
  | TextCallNode _ content codegenNode => [content; codegenNode]
  | VNodeCall _ tag props children _ _ directives _ _ =>
      ofSlot tag ++ ofOption props
        ++ concat (map ofOneOrMany (ofOption children)) ++ ofOption directives
  | CallExpression _ _ arguments => concat (map ofSlot arguments)
  | ObjectExpression _ properties => properties
  | Property _ key value => [key; value]
  | ArrayExpression _ elements => concat (map ofSlot elements)
  | FunctionExpression _ params returns body _ _ =>
      concat (map ofSlot (concat (map ofOneOrMany (ofOption params))))
        ++ concat (map ofOneOrMany (ofOption returns)) ++ ofOption body
  | ConditionalExpression _ test consequent alternate _ =>
      [test; consequent; alternate]
  | CacheExpression _ _ value _ => [value]
  | BlockStatement _ body => body
  | TemplateLiteral _ elements => concat (map ofSlot elements)
  | IfStatement _ test consequent alternate =>
      test :: consequent :: ofOption alternate
  | AssignmentExpression _ lhs rhs => [lhs; rhs]
  | SequenceExpression _ expressions => expressions
  | ReturnStatement _ returns => ofOneOrMany returns
  end.

(** *** The union types and the interfaces, as checks on a node

    TypeScript types are erased: at run time a node is an object with a
    [type] tag.  A union type is the set of tags it lists, an interface is a
    constraint on the fields of the nodes with its tag. *)

Definition isA (kinds : list NodeTypes.t) (n : Node) : bool :=
  NodeTypes.among kinds (typeOf n).

Definition ExpressionNode : list NodeTypes.t :=
  [NodeTypes.SIMPLE_EXPRESSION; NodeTypes.COMPOUND_EXPRESSION].

Definition TemplateChildNode : list NodeTypes.t :=
  [NodeTypes.ELEMENT; NodeTypes.INTERPOLATION; NodeTypes.COMPOUND_EXPRESSION;
   NodeTypes.TEXT; NodeTypes.COMMENT; NodeTypes.IF; NodeTypes.IF_BRANCH;
   NodeTypes.FOR; NodeTypes.TEXT_CALL].

Definition TemplateTextChildNode : list NodeTypes.t :=
  [NodeTypes.TEXT; NodeTypes.INTERPOLATION; NodeTypes.COMPOUND_EXPRESSION].

Definition JSChildNode : list NodeTypes.t :=
  [NodeTypes.VNODE_CALL; NodeTypes.JS_CALL_EXPRESSION;
   NodeTypes.JS_OBJECT_EXPRESSION; NodeTypes.JS_ARRAY_EXPRESSION]
  ++ ExpressionNode
  ++ [NodeTypes.JS_FUNCTION_EXPRESSION; NodeTypes.JS_CONDITIONAL_EXPRESSION;
      NodeTypes.JS_CACHE_EXPRESSION; NodeTypes.JS_ASSIGNMENT_EXPRESSION;
      NodeTypes.JS_SEQUENCE_EXPRESSION].

Definition SSRCodegenNode : list NodeTypes.t :=
  [NodeTypes.JS_BLOCK_STATEMENT; NodeTypes.JS_TEMPLATE_LITERAL;
   NodeTypes.JS_IF_STATEMENT; NodeTypes.JS_ASSIGNMENT_EXPRESSION;
   NodeTypes.JS_RETURN_STATEMENT; NodeTypes.JS_SEQUENCE_EXPRESSION].

(** The types index.ts uses in field positions without declaring them, and
    the symbol [RENDER_SLOT] it imports: parameters of the typing. *)
Record Undeclared := {
  isPropsExpression : Node -> bool;
  isIfConditionalExpression : Node -> bool;
  isForCodegenNode : Node -> bool;
  isSlotsObjectExpression : Node -> bool;
  isDynamicSlotsExpression : Node -> bool;
  isForRenderListExpression : Node -> bool;
  RENDER_SLOT : symbol
}.

Context (U : Undeclared).

(** [T | undefined] and [f?: T]. *)
Definition orUndefined {A} (p : A -> bool) (o : option A) : bool :=
  match o with
  | Some a => p a
  | None => true
  end.

(** [type SlotsExpression = SlotsObjectExpression | DynamicSlotsExpression]. *)
Definition isSlotsExpression (n : Node) : bool :=
  isSlotsObjectExpression U n || isDynamicSlotsExpression U n.

(** [interface DirectiveArgumentNode extends ArrayExpression]: a tuple of a
    string, up to two expressions and an object expression. *)
Definition isDirectiveArgumentNode (n : Node) : bool :=
  match n with
  | ArrayExpression _ elements =>
      match elements with
      | [OfString _] => true
      | [OfString _; OfNode e] => isA ExpressionNode e
      | [OfString _; OfNode e1; OfNode e2] =>
          isA ExpressionNode e1 && isA ExpressionNode e2
      | [OfString _; OfNode e1; OfNode e2; OfNode o] =>
          isA ExpressionNode e1 && isA ExpressionNode e2
          && isA [NodeTypes.JS_OBJECT_EXPRESSION] o
      | _ => false
      end
  | _ => false
  end.

(** [interface DirectiveArguments extends ArrayExpression]. *)
Definition isDirectiveArguments (n : Node) : bool :=
  match n with
  | ArrayExpression _ elements =>
      forallb (fun e => match e with
                        | OfNode d => isDirectiveArgumentNode d
                        | _ => false
                        end) elements
  | _ => false
  end.

(** [interface RenderSlotCall extends CallExpression]: the callee is
    [RENDER_SLOT] and the arguments are $slots, name, props, fallback. *)
Definition isSlotName (s : Slot Node) : bool :=
  match s with
  | OfString _ => true
  | OfNode e => isA ExpressionNode e
  | _ => false
  end.

Definition isRenderSlotCall (n : Node) : bool :=
  match n with
  | CallExpression _ (inr callee) arguments =>
      bool_decide (callee = RENDER_SLOT U)
      && match arguments with
         | [OfString _; name] => isSlotName name
         | [OfString _; name; OfNode props] =>
             isSlotName name && isPropsExpression U props
         | [OfString _; name; OfNode props; OfNodes fallback] =>
             isSlotName name && isPropsExpression U props
             && forallb (isA TemplateChildNode) fallback
         | [OfString _; name; OfString "{}"; OfNodes fallback] =>
             isSlotName name && forallb (isA TemplateChildNode) fallback
         | _ => false
         end
  | _ => false
  end.

(** The constraint each interface puts on the fields of its own node. *)
Definition conforms (n : Node) : bool :=
  match n with
  | ElementNode _ _ _ tagType _ props children codegenNode ssrCodegenNode =>
      forallb (isA [NodeTypes.ATTRIBUTE; NodeTypes.DIRECTIVE]) props
      && forallb (isA TemplateChildNode) children
      && match tagType with
         | ElementTypes.ELEMENT =>
             orUndefined (isA [NodeTypes.VNODE_CALL;
                              NodeTypes.SIMPLE_EXPRESSION;
                              NodeTypes.JS_CACHE_EXPRESSION]) codegenNode
             && orUndefined (isA [NodeTypes.JS_TEMPLATE_LITERAL]) ssrCodegenNode
         | ElementTypes.COMPONENT =>
             orUndefined (isA [NodeTypes.VNODE_CALL;
                              NodeTypes.JS_CACHE_EXPRESSION]) codegenNode
             && orUndefined (isA [NodeTypes.JS_CALL_EXPRESSION]) ssrCodegenNode
         | ElementTypes.SLOT =>
             orUndefined (fun c => isRenderSlotCall c
                                   || isA [NodeTypes.JS_CACHE_EXPRESSION] c)
               codegenNode
             && orUndefined (isA [NodeTypes.JS_CALL_EXPRESSION]) ssrCodegenNode
         | ElementTypes.TEMPLATE =>
             (* codegenNode: undefined *)
             match codegenNode with
             | None => true
             | Some _ => false
             end
         end
  | TextNode _ _ | CommentNode _ _ => true
  | AttributeNode _ _ value => orUndefined (isA [NodeTypes.TEXT]) value
  | DirectiveNode _ _ exp arg _ _ =>
      orUndefined (isA ExpressionNode) exp && orUndefined (isA ExpressionNode) arg
  | SimpleExpressionNode _ _ _ _ hoisted _ _ =>
      orUndefined (isA JSChildNode) hoisted
  | InterpolationNode _ content => isA ExpressionNode content
  | CompoundExpressionNode _ children _ =>
      forallb (fun c => match c with
                        | OfNode e => isA [NodeTypes.SIMPLE_EXPRESSION;
                                          NodeTypes.COMPOUND_EXPRESSION;
                                          NodeTypes.INTERPOLATION;
                                          NodeTypes.TEXT] e
                        | OfString _ | OfSymbol _ => true
                        | OfNodes _ => false
                        end) children
  | IfNode _ branches codegenNode =>
      forallb (isA [NodeTypes.IF_BRANCH]) branches
      && orUndefined (isIfConditionalExpression U) codegenNode
  | IfBranchNode _ condition children =>
      orUndefined (isA ExpressionNode) condition
      && forallb (isA TemplateChildNode) children
  | ForNode _ source valueAlias keyAlias objectIndexAlias _ children
      codegenNode =>
      isA ExpressionNode source
      && orUndefined (isA ExpressionNode) valueAlias
      && orUndefined (isA ExpressionNode) keyAlias
      && orUndefined (isA ExpressionNode) objectIndexAlias
      && forallb (isA TemplateChildNode) children
      && orUndefined (isForCodegenNode U) codegenNode
  | TextCallNode _ content codegenNode =>
      isA TemplateTextChildNode content
      && isA [NodeTypes.JS_CALL_EXPRESSION; NodeTypes.SIMPLE_EXPRESSION]
           codegenNode
  | VNodeCall _ tag props children _ _ directives _ _ =>
      match tag with
      | OfString _ | OfSymbol _ => true
      | OfNode c => isA [NodeTypes.JS_CALL_EXPRESSION] c
      | OfNodes _ => false
      end
      && orUndefined (isPropsExpression U) props
      && orUndefined (fun c => match c with
                               | Many l => forallb (isA TemplateChildNode) l
                               | One c => isA TemplateTextChildNode c
                                          || isSlotsExpression c
                                          || isForRenderListExpression U c
                               end) children
      && orUndefined isDirectiveArguments directives
  | CallExpression _ _ arguments =>
      forallb (fun a => match a with
                        | OfString _ | OfSymbol _ => true
                        | OfNode c => isA JSChildNode c || isA SSRCodegenNode c
                                      || isA TemplateChildNode c
                        | OfNodes l => forallb (isA TemplateChildNode) l
                        end) arguments
  | ObjectExpression _ properties =>
      forallb (isA [NodeTypes.JS_PROPERTY]) properties
  | Property _ key value => isA ExpressionNode key && isA JSChildNode value
  | ArrayExpression _ elements | TemplateLiteral _ elements =>
      forallb (fun e => match e with
                        | OfString _ => true
                        | OfNode c => isA JSChildNode c
                        | OfSymbol _ | OfNodes _ => false
                        end) elements
  | FunctionExpression _ params returns body _ _ =>
      let param p := match p with
                     | OfString _ => true
                     | OfNode e => isA ExpressionNode e
                     | OfSymbol _ | OfNodes _ => false
                     end in
      orUndefined (fun ps => match ps with
                             | One p => param p
                             | Many l => forallb param l
                             end) params
      && orUndefined (fun r => match r with
                               | One c => isA TemplateChildNode c
                                          || isA JSChildNode c
                               | Many l => forallb (isA TemplateChildNode) l
                               end) returns
      && orUndefined (isA [NodeTypes.JS_BLOCK_STATEMENT;
                          NodeTypes.JS_IF_STATEMENT]) body
  | ConditionalExpression _ test consequent alternate _ =>
      isA JSChildNode test && isA JSChildNode consequent
      && isA JSChildNode alternate
  | CacheExpression _ _ value _ => isA JSChildNode value
  | BlockStatement _ body =>
      forallb (fun c => isA JSChildNode c || isA [NodeTypes.JS_IF_STATEMENT] c)
        body
  | IfStatement _ test consequent alternate =>
      isA ExpressionNode test
      && isA [NodeTypes.JS_BLOCK_STATEMENT] consequent
      && orUndefined (isA [NodeTypes.JS_IF_STATEMENT;
                          NodeTypes.JS_BLOCK_STATEMENT;
                          NodeTypes.JS_RETURN_STATEMENT]) alternate
  | AssignmentExpression _ lhs rhs =>
      isA [NodeTypes.SIMPLE_EXPRESSION] lhs && isA JSChildNode rhs
  | SequenceExpression _ expressions => forallb (isA JSChildNode) expressions
  | ReturnStatement _ returns =>
      match returns with
      | One c => isA TemplateChildNode c || isA JSChildNode c
      | Many l => forallb (isA TemplateChildNode) l
      end
  end.

(** [every p n]: [p] holds of [n] and of every node below it. *)
Definition everySlot {A} (p : A -> bool) (s : Slot A) : bool :=
  match s with
  | OfNode n => p n
  | OfNodes ns => forallb p ns
  | OfString _ | OfSymbol _ => true
  end.

Definition everyOneOrMany {A} (p : A -> bool) (m : OneOrMany A) : bool :=
  match m with
  | One a => p a
  | Many l => forallb p l
  end.

Fixpoint every (p : Node -> bool) (n : Node) {struct n} : bool :=
  p n
  && match n with
     | ElementNode _ _ _ _ _ props children codegenNode ssrCodegenNode =>
         forallb (every p) props && forallb (every p) children
         && orUndefined (every p) codegenNode
         && orUndefined (every p) ssrCodegenNode
     | TextNode _ _ | CommentNode _ _ => true
     | AttributeNode _ _ value => orUndefined (every p) value
     | DirectiveNode _ _ exp arg _ _ =>
         orUndefined (every p) exp && orUndefined (every p) arg
     | SimpleExpressionNode _ _ _ _ hoisted _ _ =>
         orUndefined (every p) hoisted
     | InterpolationNode _ content => every p content
     | CompoundExpressionNode _ children _ =>
         forallb (everySlot (every p)) children
     | IfNode _ branches codegenNode =>
         forallb (every p) branches && orUndefined (every p) codegenNode
     | IfBranchNode _ condition children =>
         orUndefined (every p) condition && forallb (every p) children
     | ForNode _ source valueAlias keyAlias objectIndexAlias _ children
         codegenNode =>
         every p source && orUndefined (every p) valueAlias
         && orUndefined (every p) keyAlias
         && orUndefined (every p) objectIndexAlias
         && forallb (every p) children && orUndefined (every p) codegenNode
     | TextCallNode _ content codegenNode =>
         every p content && every p codegenNode
     | VNodeCall _ tag props children _ _ directives _ _ =>
         everySlot (every p) tag && orUndefined (every p) props
         && orUndefined (everyOneOrMany (every p)) children
         && orUndefined (every p) directives
     | CallExpression _ _ arguments =>
         forallb (everySlot (every p)) arguments
     | ObjectExpression _ properties => forallb (every p) properties
     | Property _ key value => every p key && every p value
     | ArrayExpression _ elements | TemplateLiteral _ elements =>
         forallb (everySlot (every p)) elements
     | FunctionExpression _ params returns body _ _ =>
         orUndefined (everyOneOrMany (everySlot (every p))) params
         && orUndefined (everyOneOrMany (every p)) returns
         && orUndefined (every p) body
     | ConditionalExpression _ test consequent alternate _ =>
         every p test && every p consequent && every p alternate
     | CacheExpression _ _ value _ => every p value
     | BlockStatement _ body => forallb (every p) body
     | IfStatement _ test consequent alternate =>
         every p test && every p consequent && orUndefined (every p) alternate
     | AssignmentExpression _ lhs rhs => every p lhs && every p rhs
     | SequenceExpression _ expressions => forallb (every p) expressions
     | ReturnStatement _ returns => everyOneOrMany (every p) returns
     end.

(** A node is well typed when it and every node below it conform to their
    interfaces. *)
Definition wellTyped (n : Node) : bool := every conforms n.

(** [interface RootNode]: the children are template children, a hoist is a
    [JSChildNode] or [null], and the codegen node, when set, is a template
    child, a [JSChildNode] or a block statement. *)
Definition wellTypedRoot (root : RootNode) : bool :=
  forallb (fun c => isA TemplateChildNode c && wellTyped c) (children root)
  && forallb (orUndefined (fun h => isA JSChildNode h && wellTyped h))
       (hoists root)
  && orUndefined (fun c => (isA TemplateChildNode c || isA JSChildNode c
                            || isA [NodeTypes.JS_BLOCK_STATEMENT] c)
                           && wellTyped c) (codegenNode root).

(** [type ParentNode = RootNode | ElementNode | IfBranchNode | ForNode]. *)
Definition ParentNode : list NodeTypes.t :=
  [NodeTypes.ROOT; NodeTypes.ELEMENT; NodeTypes.IF_BRANCH; NodeTypes.FOR].

(** The field [children: TemplateChildNode[]] that the members of
    [ParentNode] declare, read off a node below the root.  Two more
    interfaces declare a field named [children], of another type, and are
    not members of [ParentNode]: [CompoundExpressionNode] (a list of
    fragments) and [VNodeCall] (an array, a single node, or nothing); this
    function does not read those. *)
Definition parentChildren (n : Node) : option (list Node) :=
  match n with
  | ElementNode _ _ _ _ _ _ children _ _ => Some children
  | IfBranchNode _ _ children => Some children
  | ForNode _ _ _ _ _ _ children _ => Some children
  | _ => None
  end.

(** *** The readings of the data-model sentences that are checked below *)

(** A back-reference by index only: a cache expression, or a simple
    expression (the kind that stands for a hoisted node), that holds no node
    in its fields. *)
Definition backReferenceByIndex (n : Node) : bool :=
  match n with
  | CacheExpression _ _ _ _ | SimpleExpressionNode _ _ _ _ _ _ _ =>
      match held n with
      | [] => true
      | _ :: _ => false
      end
  | _ => true
  end.

(** A template container carries no codegen node. *)
Definition templateCompiledAway (n : Node) : bool :=
  match n with
  | ElementNode _ _ _ ElementTypes.TEMPLATE _ _ _ (Some _) _ => false
  | _ => true
  end.

(** The kinds of the generated-code family: call, object, array, property,
    function, conditional, cache, assignment, sequence, return, block,
    if-statement, template literal. *)
Definition generatedCodeKinds : list NodeTypes.t :=
  [NodeTypes.JS_CALL_EXPRESSION; NodeTypes.JS_OBJECT_EXPRESSION;
   NodeTypes.JS_ARRAY_EXPRESSION; NodeTypes.JS_PROPERTY;
   NodeTypes.JS_FUNCTION_EXPRESSION; NodeTypes.JS_CONDITIONAL_EXPRESSION;
   NodeTypes.JS_CACHE_EXPRESSION; NodeTypes.JS_ASSIGNMENT_EXPRESSION;
   NodeTypes.JS_SEQUENCE_EXPRESSION; NodeTypes.JS_RETURN_STATEMENT;
   NodeTypes.JS_BLOCK_STATEMENT; NodeTypes.JS_IF_STATEMENT;
   NodeTypes.JS_TEMPLATE_LITERAL].

(** A smallest node of each generated-code kind, with the synthetic span. *)
Definition identifier (name : string) : Node :=
  SimpleExpressionNode synthetic name false false None None None.

Definition smallest (k : NodeTypes.t) : Node :=
  match k with
  | NodeTypes.JS_CALL_EXPRESSION => CallExpression synthetic (inl "f") []
  | NodeTypes.JS_OBJECT_EXPRESSION => ObjectExpression synthetic []
  | NodeTypes.JS_ARRAY_EXPRESSION => ArrayExpression synthetic []
  | NodeTypes.JS_PROPERTY =>
      Property synthetic (identifier "k") (identifier "v")
  | NodeTypes.JS_FUNCTION_EXPRESSION =>
      FunctionExpression synthetic None None None false false
  | NodeTypes.JS_CONDITIONAL_EXPRESSION =>
      ConditionalExpression synthetic (identifier "c") (identifier "a")
        (identifier "b") false
  | NodeTypes.JS_CACHE_EXPRESSION =>
      CacheExpression synthetic 0 (identifier "v") false
  | NodeTypes.JS_ASSIGNMENT_EXPRESSION =>
      AssignmentExpression synthetic (identifier "x") (identifier "v")
  | NodeTypes.JS_SEQUENCE_EXPRESSION => SequenceExpression synthetic []
  | NodeTypes.JS_RETURN_STATEMENT => ReturnStatement synthetic (Many [])
  | NodeTypes.JS_BLOCK_STATEMENT => BlockStatement synthetic []
  | NodeTypes.JS_IF_STATEMENT =>
      IfStatement synthetic (identifier "c") (BlockStatement synthetic []) None
  | NodeTypes.JS_TEMPLATE_LITERAL => TemplateLiteral synthetic []
  | _ => identifier "x"
  end.

End Catalogue.

Arguments Node : clear implicits.
Arguments RootNode : clear implicits.
Arguments Undeclared : clear implicits.

(** *** Concrete nodes, with [ForParseResult] a one-point type and every
    undeclared type empty *)

Module Sample.

Definition undeclared : Undeclared unit :=
  {| isPropsExpression := fun _ => false;
     isIfConditionalExpression := fun _ => false;
     isForCodegenNode := fun _ => false;
     isSlotsObjectExpression := fun _ => false;
     isDynamicSlotsExpression := fun _ => false;
     isForRenderListExpression := fun _ => false;
     RENDER_SLOT := Symbol "renderSlot" 0 |}.

(** The vnode call of a static [<p>hello</p>]. *)
Definition staticParagraph : Node unit :=
  VNodeCall synthetic (OfString "p") None
    (Some (One (TextNode synthetic "hello"))) None None None false false.

(** A cache expression for slot 0 around it. *)
Definition cachedParagraph : Node unit :=
  CacheExpression synthetic 0 staticParagraph true.

(** The identifier that stands for it once hoisted. *)
Definition hoistedParagraph : Node unit :=
  SimpleExpressionNode synthetic "_hoisted_1" false true
    (Some staticParagraph) None None.

(** A template container and a plain element. *)
Definition templateContainer : Node unit :=
  ElementNode synthetic Namespaces.HTML "template" ElementTypes.TEMPLATE
    false [] [TextNode synthetic "hello"] None None.

Definition paragraph : Node unit :=
  ElementNode synthetic Namespaces.HTML "p" ElementTypes.ELEMENT
    false [] [TextNode synthetic "hello"] (Some staticParagraph) None.

(** A reading of the undeclared types in which a [PropsExpression] is an
    object expression, and the call [renderSlot($slots, "default", {})]. *)
Definition undeclaredProps : Undeclared unit :=
  {| isPropsExpression := isA [NodeTypes.JS_OBJECT_EXPRESSION];
     isIfConditionalExpression := fun _ => false;
     isForCodegenNode := fun _ => false;
     isSlotsObjectExpression := fun _ => false;
     isDynamicSlotsExpression := fun _ => false;
     isForRenderListExpression := fun _ => false;
     RENDER_SLOT := Symbol "renderSlot" 0 |}.

Definition slotCall : Node unit :=
  CallExpression synthetic (inr (Symbol "renderSlot" 0))
    [OfString "$slots"; OfString "default";
     OfNode (ObjectExpression synthetic [])].

(** A [v-for] list item with one text child. *)
Definition listItem : Node unit :=
  ElementNode synthetic Namespaces.HTML "li" ElementTypes.ELEMENT
    false [] [InterpolationNode synthetic (identifier "item")] None None.

End Sample.

End AST.

(** ** The transform context of the spec, over the root of index.ts *)

Module TransformContext.
Import AST.

Section Operations.

Context {ForParseResult ImportItem : Type}.

Abbreviation Node := (Node ForParseResult).
Abbreviation RootNode := (RootNode ForParseResult ImportItem).

(** The assignments [root.helpers = hs] and [root.hoists = hs]. *)
Definition setHelpers (hs : list symbol) (root : RootNode) : RootNode :=
  {| loc := loc root; children := children root; helpers := hs;
     components := components root; directives := directives root;
     hoists := hoists root; imports := imports root; cached := cached root;
     temps := temps root; ssrHelpers := ssrHelpers root;
     codegenNode := codegenNode root |}.

Definition setHoists (hs : list (option Node)) (root : RootNode) : RootNode :=
  {| loc := loc root; children := children root; helpers := helpers root;
     components := components root; directives := directives root;
     hoists := hs; imports := imports root; cached := cached root;
     temps := temps root; ssrHelpers := ssrHelpers root;
     codegenNode := codegenNode root |}.

(** Modelled from the spec: [registerHelper(symbol)], which index.ts does not
    contain.  The spec: it "adds a runtime-helper identifier to the root's
    helper set (idempotent - a set, not a list with duplicates)".  The field
    is the array [helpers: symbol[]] of [RootNode]; a symbol already in it is
    not added again, a new one goes to the end. *)
Definition registerHelper (s : symbol) (root : RootNode) : RootNode :=
  if decide (s ∈ helpers root) then root
  else setHelpers (helpers root ++ [s]) root.

(** Modelled from the spec: the helpers a compilation registers, one after
    the other, through [registerHelper]. *)
Definition registerHelpers (ss : list symbol) (root : RootNode) : RootNode :=
  foldl (fun r s => registerHelper s r) root ss.

(** Modelled from the spec: [hoist(node)], which index.ts does not contain.
    The spec: it "appends a node to [Root.hoists], returns its slot index,
    and replaces the original node's occurrence with a lightweight static
    reference expression carrying that index".  The result is the slot index
    the reference carries and the root after the append. *)
Definition hoist (node : Node) (root : RootNode) : nat * RootNode :=
  (length (hoists root), setHoists (hoists root ++ [Some node]) root).

(** Modelled from the spec: the invalidation of a hoist, which index.ts does
    not contain.  The spec: [Root.hoists] "may contain holes if a hoist was
    later invalidated".  The slot of an earlier hoist is overwritten with
    [null]; an index that no hoist returned names no slot and nothing
    changes. *)
Definition invalidateHoist (index : nat) (root : RootNode) : RootNode :=
  setHoists (<[index := None]> (hoists root)) root.

(** Modelled from the spec: what a compilation does to [Root.hoists], step
    by step, through [hoist] and the invalidation of a hoist.  The state is
    the root and the references handed out so far: for each [hoist], the
    index its reference expression carries and the node it stands for. *)
Inductive HoistOp :=
| Hoist (node : Node)
| Invalidate (index : nat).

Definition hoistStep (st : RootNode * list (nat * Node)) (op : HoistOp)
  : RootNode * list (nat * Node) :=
  match op with
  | Hoist node =>
      let '(index, root) := hoist node (fst st) in
      (root, snd st ++ [(index, node)])
  | Invalidate index => (invalidateHoist index (fst st), snd st)
  end.

Definition hoistRun (ops : list HoistOp) (root : RootNode)
  : RootNode * list (nat * Node) :=
  foldl hoistStep (root, []) ops.

(** The number of hoists performed by a sequence of steps. *)
Definition isHoist (op : HoistOp) : bool :=
  match op with
  | Hoist _ => true
  | Invalidate _ => false
  end.

Definition hoistCount (ops : list HoistOp) : nat :=
  length (List.filter isHoist ops).

(** The invariant of the hoist steps after [k] hoists: the references carry
    the indices 0 .. k-1 in order, the array has [k] slots, and the slot of a
    reference holds the node the reference stands for, or a hole. *)
Definition hoistInv (st : RootNode * list (nat * Node)) (k : nat) : Prop :=
  (snd st).*1 = seq 0 k
  /\ length (hoists (fst st)) = k
  /\ forall i node, (i, node) ∈ snd st ->
       hoists (fst st) !! i = Some (Some node)
       \/ hoists (fst st) !! i = Some None.

End Operations.

(** A fresh root, and a run with three hoists and one invalidation. *)
Module Sample.

Definition freshRoot : AST.RootNode unit unit :=
  {| loc := synthetic; children := []; helpers := []; components := [];
     directives := []; hoists := []; imports := []; cached := 0;
     temps := 0; ssrHelpers := None; codegenNode := None |}.

Definition run : list (HoistOp (ForParseResult := unit)) :=
  [Hoist (identifier "a"); Hoist (identifier "b"); Invalidate 0;
   Hoist (identifier "c")].

Definition CREATE_VNODE : symbol := Symbol "createVNode" 1.
Definition TO_DISPLAY_STRING : symbol := Symbol "toDisplayString" 2.

End Sample.

End TransformContext.

(** ** The phases of the spec that touch an element's codegen node *)

Module Phases.
Import AST.

Section Passes.

Context {ForParseResult : Type}.

Abbreviation Node := (Node ForParseResult).

(** Modelled from the spec: what the spec leaves open about the passes,
    which index.ts does not contain.  The spec fixes the kind of node a pass
    builds ("lowering component nodes into vnode-call codegen nodes,
    rewriting slot-outlet nodes into render-slot calls", a "reference
    expression" for a hoisted node, a cache expression that "wraps" the
    cached one), not its content, and treats eligibility for hoisting and
    caching as "a configurable policy function". *)
Record Policy := {
  vnodeCallFor : Node -> Node;
  renderSlotCallFor : Node -> Node;
  referenceFor : Node -> Node;
  cacheFor : Node -> Node;
  isStaticNode : Node -> bool;
  isOnce : Node -> bool
}.

Context (P : Policy).

(** The assignment [element.codegenNode = c]. *)
Definition setCodegenNode (c : Node) (n : Node) : Node :=
  match n with
  | ElementNode l ns tag tagType isSelfClosing props children _ ssr =>
      ElementNode l ns tag tagType isSelfClosing props children (Some c) ssr
  | _ => n
  end.

(** Modelled from the spec: the transform pass for the element family, which
    index.ts does not contain.  The spec: an element holds "(except
    template-container) an optional codegen node produced by transforms", and
    "[Element.codegenNode] is unset until the transform pass for that element
    family has run, after which it is set exactly once".  A plain element and
    a component get a vnode call, a slot outlet gets a render-slot call, a
    template container is left as it is; an element whose codegen node is set
    is left as it is. *)
Definition lowerElement (n : Node) : Node :=
  match n with
  | ElementNode _ _ _ tagType _ _ _ None _ =>
      match tagType with
      | ElementTypes.ELEMENT | ElementTypes.COMPONENT =>
          setCodegenNode (vnodeCallFor P n) n
      | ElementTypes.SLOT => setCodegenNode (renderSlotCallFor P n) n
      | ElementTypes.TEMPLATE => n
      end
  | _ => n
  end.

(** Modelled from the spec: the hoisting of an element, which index.ts does
    not contain.  The spec: [hoist] "replaces the original node's occurrence
    with a lightweight static reference expression"; index.ts allows the
    reference (a simple expression, "when hoisted") as the codegen node of a
    plain element only.  The codegen node of a plain element that the policy
    finds static is replaced by its reference. *)
Definition hoistElement (n : Node) : Node :=
  match n with
  | ElementNode _ _ _ ElementTypes.ELEMENT _ _ _ (Some c) _ =>
      if isStaticNode P c then setCodegenNode (referenceFor P c) n else n
  | _ => n
  end.

(** Modelled from the spec: the caching of an element, which index.ts does
    not contain.  The spec: [cache] "wraps [expr], and returns the wrapper",
    for instance for "a v-once-annotated subtree".  The codegen node of an
    element that the policy caches is replaced by the cache expression around
    it; an element without a codegen node has nothing to wrap. *)
Definition cacheElement (n : Node) : Node :=
  match n with
  | ElementNode _ _ _ _ _ _ _ (Some c) _ =>
      if isOnce P n then setCodegenNode (cacheFor P c) n else n
  | _ => n
  end.

(** The template nodes directly below a template node: the children of an
    element, of an if-branch and of a for node, and the branches of an if
    node. *)
Definition templateKids (n : Node) : list Node :=
  match n with
  | ElementNode _ _ _ _ _ _ children _ _ => children
  | IfNode _ branches _ => branches
  | IfBranchNode _ _ children => children
  | ForNode _ _ _ _ _ _ children _ => children
  | _ => []
  end.

Definition withKids (n : Node) (kids : list Node) : Node :=
  match n with
  | ElementNode l ns tag tagType isSelfClosing props _ codegenNode ssr =>
      ElementNode l ns tag tagType isSelfClosing props kids codegenNode ssr
  | IfNode l _ codegenNode => IfNode l kids codegenNode
  | IfBranchNode l condition _ => IfBranchNode l condition kids
  | ForNode l source valueAlias keyAlias objectIndexAlias parseResult _
      codegenNode =>
      ForNode l source valueAlias keyAlias objectIndexAlias parseResult kids
        codegenNode
  | _ => n
  end.

(** Modelled from the spec: the transform driver, which index.ts does not
    contain.  The spec: a "depth-first traversal of the AST applying
    registered transforms", where a transform may "finalize codegen on the
    way up"; the node transform [f] is applied to a node once the template
    nodes below it are done. *)
Fixpoint traverse (f : Node -> Node) (n : Node) {struct n} : Node :=
  f match n with
    | ElementNode l ns tag tagType isSelfClosing props children codegenNode
        ssr =>
        ElementNode l ns tag tagType isSelfClosing props
          (map (traverse f) children) codegenNode ssr
    | IfNode l branches codegenNode =>
        IfNode l (map (traverse f) branches) codegenNode
    | IfBranchNode l condition children =>
        IfBranchNode l condition (map (traverse f) children)
    | ForNode l source valueAlias keyAlias objectIndexAlias parseResult
        children codegenNode =>
        ForNode l source valueAlias keyAlias objectIndexAlias parseResult
          (map (traverse f) children) codegenNode
    | _ => n
    end.

(** Modelled from the spec: the phases after the parser, which index.ts does
    not contain.  The spec: the tree is "created once by the parser, mutated
    in place through the transform phase, and consumed (read-only) by
    codegen".  The transform phase is a sequence of passes over the tree, one
    per transform; code generation leaves the tree as it is. *)
Inductive Pass := Lower | HoistStatic | CacheOnce | Generate.

(** Modelled from the spec: one pass over the tree, and the passes of a
    compilation one after the other. *)
Definition runPass (pass : Pass) (n : Node) : Node :=
  match pass with
  | Lower => traverse lowerElement n
  | HoistStatic => traverse hoistElement n
  | CacheOnce => traverse cacheElement n
  | Generate => n
  end.

Definition runPasses (passes : list Pass) (n : Node) : Node :=
  foldl (fun tree pass => runPass pass tree) n passes.

Definition isLower (pass : Pass) : bool :=
  match pass with
  | Lower => true
  | _ => false
  end.

(** [p] holds of a template node and of every template node below it. *)
Fixpoint templateAll (p : Node -> bool) (n : Node) {struct n} : bool :=
  p n
  && match n with
     | ElementNode _ _ _ _ _ _ children _ _ => forallb (templateAll p) children
     | IfNode _ branches _ => forallb (templateAll p) branches
     | IfBranchNode _ _ children => forallb (templateAll p) children
     | ForNode _ _ _ _ _ _ children _ => forallb (templateAll p) children
     | _ => true
     end.

(** Where an element stands: a template container has no codegen node, and
    an element of another variant has one exactly when [lowered]. *)
Definition codegenState (lowered : bool) (n : Node) : bool :=
  match n with
  | ElementNode _ _ _ tagType _ _ _ codegenNode _ =>
      match tagType, codegenNode with
      | ElementTypes.TEMPLATE, None => true
      | ElementTypes.TEMPLATE, Some _ => false
      | _, None => negb lowered
      | _, Some _ => lowered
      end
  | _ => true
  end.

(** The kinds of the nodes a policy builds, as the spec names them. *)
Definition policyKinds (U : Undeclared ForParseResult) : Prop :=
  (forall n, typeOf (vnodeCallFor P n) = NodeTypes.VNODE_CALL)
  /\ (forall n, isRenderSlotCall U (renderSlotCallFor P n) = true)
  /\ (forall c, typeOf (referenceFor P c) = NodeTypes.SIMPLE_EXPRESSION)
  /\ (forall c, typeOf (cacheFor P c) = NodeTypes.JS_CACHE_EXPRESSION).

End Passes.

Arguments Policy : clear implicits.

(** A policy, and the tree of
    [<template><slot/><p>hello</p><Card/></template>] as the parser leaves
    it. *)
Module Sample.

Definition policy : Policy unit :=
  {| vnodeCallFor := fun n =>
       VNodeCall (locOf n)
         (OfString match n with
                   | ElementNode _ _ tag _ _ _ _ _ _ => tag
                   | _ => ""
                   end)
         None None None None None false false;
     renderSlotCallFor := fun n =>
       CallExpression (locOf n) (inr (Symbol "renderSlot" 0))
         [OfString "$slots"; OfString "default"];
     referenceFor := fun c =>
       SimpleExpressionNode (locOf c) "_hoisted_1" false true (Some c)
         None None;
     cacheFor := fun c => CacheExpression (locOf c) 0 c true;
     isStaticNode := fun _ => true;
     isOnce := fun n =>
       match n with
       | ElementNode _ _ _ ElementTypes.COMPONENT _ _ _ _ _ => true
       | _ => false
       end |}.

Definition element (tag : string) (tagType : ElementTypes.t)
    (children : list (AST.Node unit)) : AST.Node unit :=
  ElementNode synthetic Namespaces.HTML tag tagType false [] children
    None None.

Definition parsed : AST.Node unit :=
  element "template" ElementTypes.TEMPLATE
    [element "slot" ElementTypes.SLOT [];
     element "p" ElementTypes.ELEMENT [TextNode synthetic "hello"];
     element "Card" ElementTypes.COMPONENT []].

End Sample.

End Phases.

(** ** packages/compiler-ssr/index.js and the template-explorer entry *)

Module Entry.

(** The module object that [require(path)] resolves to, known by its path. *)
Inductive Exports := Required (path : string).

Definition require (path : string) : Exports := Required path.

(** [process.env]: a dictionary from variable names to strings; a variable
    that is not set reads as [undefined]. *)
Definition Env := gmap string string.

(** [v === s] for a value that is a string or [undefined]. *)
Definition strictEq (v : option string) (s : string) : bool :=
  match v with
  | Some x => String.eqb x s
  | None => false
  end.

(** packages/compiler-ssr/index.js: the value of [module.exports]. *)
Definition compiler_ssr_index (env : gmap string string) : Exports :=
  if strictEq (env !! "NODE_ENV") "production"
  then require "./dist/compiler-ssr.cjs.prod.js"
  else require "./dist/compiler-ssr.cjs.js".

(** The template-explorer entry module: the value of [module.exports]. *)
Definition template_explorer_index (env : gmap string string) : Exports :=
  if strictEq (env !! "NODE_ENV") "production"
  then require "./dist/template-explorer.cjs.prod.js"
  else require "./dist/template-explorer.cjs.js".

End Entry.

(** * Properties *)

(** ** makeMap *)

Section MakeMapFacts.
Import Shared.

(** [split] is the reading of [str.split(sep)]: no piece contains the
    separator, and joining the pieces gives the string back. *)
Lemma split_not_nil sep str : split sep str <> [].
Proof.
  destruct str as [|c rest]; simpl; [discriminate|].
  destruct (Ascii.eqb c sep); [discriminate|].
  destruct (split sep rest); discriminate.
Qed.

Lemma join_cons sep piece pieces :
  pieces <> [] ->
  join sep (piece :: pieces) = piece +:+ String sep (join sep pieces).
Proof. destruct pieces; [congruence | reflexivity]. Qed.

Lemma join_split sep str : join sep (split sep str) = str.
Proof.
  induction str as [|c rest IH]; simpl; [reflexivity|].
  destruct (Ascii.eqb_spec c sep) as [->|Hne].
  - rewrite join_cons by apply split_not_nil. simpl. by rewrite IH.
  - pose proof (split_not_nil sep rest) as Hnil.
    destruct (split sep rest) as [|piece pieces] eqn:E; [congruence|].
    destruct pieces as [|piece' pieces]; simpl in *; by rewrite <- IH.
Qed.

Lemma split_pieces_free sep str piece :
  piece ∈ split sep str -> occurs sep piece = false.
Proof.
  revert piece. induction str as [|c rest IH]; simpl; intros piece Hin.
  - apply list_elem_of_singleton in Hin. by subst.
  - destruct (Ascii.eqb c sep) eqn:Ec.
    + apply elem_of_cons in Hin as [->|Hin]; [reflexivity | by apply IH].
    + pose proof (split_not_nil sep rest) as Hnil.
      destruct (split sep rest) as [|p ps]; [congruence|].
      apply elem_of_cons in Hin as [->|Hin].
      * simpl. rewrite Ec. apply IH. by left.
      * apply IH. by right.
Qed.

Example split_commas :
  split "," "a,b,,c" = ["a"; "b"; ""; "c"]
  /\ split "," "" = [""]
  /\ split "," "," = [""; ""]
  /\ split "," "slot,component" = ["slot"; "component"].
Proof. repeat split. Qed.

Example toLowerCase_units :
  toLowerCase "KeepAlive" = "keepalive"
  /\ toLowerCase "v-on:Click,1" = "v-on:click,1"
  /\ toLowerCase (String (ascii_of_N 201) "") = String (ascii_of_N 233) ""
  /\ toLowerCase (String (ascii_of_N 215) "") = String (ascii_of_N 215) "".
Proof. repeat split. Qed.

(** The dictionary after the loop: an entry of the list reads [true], any
    other key reads as before. *)
Lemma fill_lookup (map : gmap string bool) (list : list string) (key : string) :
  fill map list !! key
  = if bool_decide (key ∈ list) then Some true else map !! key.
Proof.
  unfold fill. revert map.
  induction list as [|entry list IH]; intros map; cbn [foldl].
  - by rewrite bool_decide_eq_false_2 by apply not_elem_of_nil.
  - rewrite IH. destruct (decide (key = entry)) as [->|Hne].
    + rewrite (bool_decide_eq_true_2 (entry ∈ entry :: list)) by by left.
      rewrite lookup_insert_eq. by case_bool_decide.
    + rewrite lookup_insert_ne by done.
      destruct (decide (key ∈ list)) as [Hin|Hnin].
      * rewrite !bool_decide_eq_true_2; [done | by right | done].
      * rewrite !bool_decide_eq_false_2; [done | | done].
        intros [?|?]%elem_of_cons; done.
Qed.

Lemma makeMap_unfold str expectsLowerCase key :
  makeMap str expectsLowerCase key
  = bool_decide ((if truthy expectsLowerCase then toLowerCase key else key)
                 ∈ split "," str).
Proof.
  unfold makeMap. destruct (truthy expectsLowerCase);
    rewrite fill_lookup, lookup_empty; by case_bool_decide.
Qed.

(** Lower-casing a unit twice is lower-casing it once, so a lower-cased
    string has no upper-case unit left. *)
Lemma toLowerCaseUnit_idemp c :
  toLowerCaseUnit (toLowerCaseUnit c) = toLowerCaseUnit c.
Proof. destruct c as [[] [] [] [] [] [] [] []]; reflexivity. Qed.

Lemma hasUpperCase_toLowerCase s : hasUpperCase (toLowerCase s) = false.
Proof.
  induction s as [|c rest IH]; simpl; [reflexivity|].
  rewrite IH. unfold isUpperCaseUnit.
  by rewrite toLowerCaseUnit_idemp, Ascii.eqb_refl.
Qed.

(** C3: without [expectsLowerCase] (absent or false) the predicate of
    [makeMap(str)] is true exactly on the keys equal to one of the pieces of
    [str.split(',')]; a key that is not listed, such as 'toString', is false,
    and [makeMap('')('')] is true because [''.split(',')] is ['']. *)
Theorem makeMap_exact (str key : string) :
  makeMap str None key = bool_decide (key ∈ split "," str)
  /\ makeMap str (Some false) key = bool_decide (key ∈ split "," str)
  /\ (makeMap str None key = true <-> key ∈ split "," str)
  /\ (makeMap str (Some false) key = true <-> key ∈ split "," str)
  /\ split "," "" = [""]
  /\ makeMap "" None "" = true
  /\ makeMap "a,b" None "toString" = false
  /\ makeMap "a,toString" None "toString" = true.
Proof.
  split; [apply makeMap_unfold|]. split; [apply makeMap_unfold|].
  split; [rewrite makeMap_unfold; apply bool_decide_eq_true|].
  split; [rewrite makeMap_unfold; apply bool_decide_eq_true|].
  repeat split; vm_compute; reflexivity.
Qed.

(** C9: with [expectsLowerCase] true only the key is lower-cased: the
    predicate is true exactly when [key.toLowerCase()] is one of the pieces of
    [str.split(',')] as written, so when every piece has an upper-case letter
    (for instance [str = 'Foo']) the predicate is false on every key. *)
Theorem makeMap_lowercases_key_only (str key : string) :
  makeMap str (Some true) key = bool_decide (toLowerCase key ∈ split "," str)
  /\ (makeMap str (Some true) key = true
      <-> toLowerCase key ∈ split "," str)
  /\ ((forall entry, entry ∈ split "," str -> hasUpperCase entry = true)
      -> makeMap str (Some true) key = false)
  /\ makeMap "Foo" (Some true) key = false.
Proof.
  assert (Hup : forall s, (forall entry, entry ∈ split "," s ->
                                         hasUpperCase entry = true)
                          -> makeMap s (Some true) key = false).
  { intros s Hs. rewrite makeMap_unfold. simpl truthy. cbv iota.
    apply bool_decide_eq_false_2. intros Hin. apply Hs in Hin.
    by rewrite hasUpperCase_toLowerCase in Hin. }
  split; [apply makeMap_unfold|].
  split; [rewrite makeMap_unfold; apply bool_decide_eq_true|].
  split; [apply Hup|].
  apply Hup. intros entry Hin. cbn in Hin.
  apply list_elem_of_singleton in Hin. by subst.
Qed.

Lemma makeMap_lowercases_key_only_witness :
  (forall entry, entry ∈ Shared.split "," "Foo,BAR" ->
                 hasUpperCase entry = true)
  /\ makeMap "Foo,BAR" (Some true) "foo" = false
  /\ makeMap "Foo,BAR" (Some true) "FOO" = false
  /\ makeMap "Foo" (Some true) "Foo" = false.
Proof.
  assert (H : forall entry, entry ∈ Shared.split "," "Foo,BAR" ->
                            hasUpperCase entry = true).
  { intros entry Hin. cbn in Hin.
    apply elem_of_cons in Hin as [->|Hin]; [reflexivity|].
    apply list_elem_of_singleton in Hin. by subst. }
  split; [exact H|].
  split; [exact (proj1 (proj2 (proj2
            (makeMap_lowercases_key_only "Foo,BAR" "foo"))) H)|].
  split; [exact (proj1 (proj2 (proj2
            (makeMap_lowercases_key_only "Foo,BAR" "FOO"))) H)|].
  exact (proj2 (proj2 (proj2 (makeMap_lowercases_key_only "Foo" "Foo")))).
Defined.

End MakeMapFacts.

(** ** The node catalogue *)

Section CatalogueFacts.
Import AST.

Context {ForParseResult ImportItem : Type}.

Abbreviation Node := (Node ForParseResult).

(** *** Induction over the nodes a node holds *)

Ltac held_forall IH :=
  lazymatch goal with
  | H : Forall ?P ?l |- Forall ?P ?l => exact H
  | |- Forall _ [] => constructor
  | |- Forall _ (_ :: _) => constructor; [apply IH | held_forall IH]
  | |- Forall _ (_ ++ _) => apply Forall_app; split; held_forall IH
  | |- Forall _ (ofOption ?o) => destruct o; simpl; held_forall IH
  | |- Forall _ (ofSlot ?s) => destruct s; simpl; held_forall IH
  | |- Forall _ (ofOneOrMany ?m) => destruct m; simpl; held_forall IH
  | |- Forall _ (concat (map _ (concat (map ofOneOrMany (ofOption ?o))))) =>
      destruct o as [[?|?]|]; simpl; rewrite ?app_nil_r; held_forall IH
  | |- Forall _ (concat (map _ (ofOption ?o))) =>
      destruct o; simpl; rewrite ?app_nil_r; held_forall IH
  | |- Forall _ (concat (map _ ?l)) => induction l; simpl; held_forall IH
  | |- Forall _ ?l => induction l; held_forall IH
  end.

Lemma Node_held_ind (P : Node -> Prop) :
  (forall n, Forall P (held n) -> P n) -> forall n, P n.
Proof.
  intros step. fix IH 1. intros n. apply step.
  destruct n; simpl; held_forall IH.
Qed.

(** *** [every] ranges over the held nodes *)

Lemma forallb_ofOption {A} (f : A -> bool) (o : option A) :
  forallb f (ofOption o) = orUndefined f o.
Proof. destruct o; simpl; [apply andb_true_r | reflexivity]. Qed.

Lemma forallb_ofSlot {A} (f : A -> bool) (s : Slot A) :
  forallb f (ofSlot s) = everySlot f s.
Proof. destruct s; simpl; try reflexivity. apply andb_true_r. Qed.

Lemma forallb_ofOneOrMany {A} (f : A -> bool) (m : OneOrMany A) :
  forallb f (ofOneOrMany m) = everyOneOrMany f m.
Proof. destruct m; simpl; [apply andb_true_r | reflexivity]. Qed.

Lemma forallb_concat_map {A B} (f : A -> bool) (g : B -> list A)
    (h : B -> bool) (l : list B) :
  (forall b, forallb f (g b) = h b) ->
  forallb f (concat (map g l)) = forallb h l.
Proof.
  intros Hg. induction l as [|b l IH]; simpl; [reflexivity|].
  by rewrite forallb_app, Hg, IH.
Qed.

Lemma forallb_slots {A} (f : A -> bool) (l : list (Slot A)) :
  forallb f (concat (map ofSlot l)) = forallb (everySlot f) l.
Proof. apply forallb_concat_map, forallb_ofSlot. Qed.

Lemma forallb_optional_many {A} (f : A -> bool) (o : option (OneOrMany A)) :
  forallb f (concat (map ofOneOrMany (ofOption o)))
  = orUndefined (everyOneOrMany f) o.
Proof.
  destruct o as [m|]; simpl; [|reflexivity].
  by rewrite app_nil_r, forallb_ofOneOrMany.
Qed.

Lemma forallb_params {A} (f : A -> bool)
    (o : option (OneOrMany (Slot A))) :
  forallb f (concat (map ofSlot (concat (map ofOneOrMany (ofOption o)))))
  = orUndefined (everyOneOrMany (everySlot f)) o.
Proof.
  rewrite forallb_slots. apply forallb_optional_many.
Qed.

Lemma every_held (p : Node -> bool) (n : Node) :
  every p n = p n && forallb (every p) (held n).
Proof.
  destruct n; simpl; f_equal;
    rewrite ?forallb_app, ?forallb_params, ?forallb_optional_many,
      ?forallb_slots, ?forallb_ofOption, ?forallb_ofSlot,
      ?forallb_ofOneOrMany, ?andb_true_r, ?andb_assoc;
    reflexivity.
Qed.

Lemma every_here (p : Node -> bool) (n : Node) :
  every p n = true -> p n = true.
Proof. rewrite every_held. by intros [? _]%andb_prop. Qed.

Lemma every_below (p : Node -> bool) (n m : Node) :
  every p n = true -> m ∈ held n -> every p m = true.
Proof.
  rewrite every_held. intros [_ Hall]%andb_prop Hin.
  rewrite forallb_forall in Hall. by apply Hall, list_elem_of_In.
Qed.

Lemma every_impl (p q : Node -> bool) :
  (forall n, p n = true -> q n = true) ->
  forall n, every p n = true -> every q n = true.
Proof.
  intros Hpq n. induction n as [n IH] using Node_held_ind.
  rewrite !every_held. intros [Hp Hall]%andb_prop.
  apply andb_true_intro. split; [by apply Hpq|].
  rewrite forallb_forall in Hall. apply forallb_forall. intros m Hm.
  rewrite Forall_forall in IH. apply IH; [by apply list_elem_of_In | by apply Hall].
Qed.

(** *** Typing *)

Context (U : Undeclared ForParseResult).

Lemma wellTyped_conforms (n : Node) :
  wellTyped U n = true -> conforms U n = true.
Proof. apply every_here. Qed.

Lemma wellTyped_held (n m : Node) :
  wellTyped U n = true -> m ∈ held n -> wellTyped U m = true.
Proof. apply every_below. Qed.

(** The span is a field of its own: no interface constrains it. *)
Lemma wellTyped_setLoc (l : SourceLocation) (n : Node) :
  wellTyped U (setLoc l n) = wellTyped U n.
Proof. destruct n; reflexivity. Qed.

(** What the interfaces leave open: the branches of an [IfNode] are
    [IfBranchNode]s whose [condition] is an expression or [undefined], with
    no constraint across the branches, and a well-typed node stays well
    typed under any span ([wellTyped_setLoc]). *)
Lemma IfNode_branches_typed (l : SourceLocation) (branches : list Node) :
  wellTyped U (IfNode l branches None) = true ->
  forall b, b ∈ branches ->
    exists lb condition children,
      b = IfBranchNode lb condition children
      /\ orUndefined (isA ExpressionNode) condition = true.
Proof.
  intros Hwt b Hb.
  pose proof (wellTyped_conforms _ Hwt) as Hc. simpl in Hc.
  rewrite andb_true_r, forallb_forall in Hc.
  assert (Hk : isA [NodeTypes.IF_BRANCH] b = true)
    by (by apply Hc, list_elem_of_In).
  assert (Hwb : wellTyped U b = true).
  { apply (wellTyped_held _ _ Hwt). simpl. rewrite app_nil_r. done. }
  apply wellTyped_conforms in Hwb.
  destruct b; try discriminate Hk. do 3 eexists. split; [reflexivity|].
  simpl in Hwb. by apply andb_prop in Hwb as [? _].
Qed.

(** C1, as the code has it: a cache expression stores its slot index and
    also holds the cached node itself, its [value], a [JSChildNode]; a simple
    expression has no index field, and when it stands for a hoisted node its
    [hoisted] field holds that node itself, a [JSChildNode].  Neither is a
    reference by index only. *)
Theorem back_references_hold_the_node :
  (forall loc index value isVNode,
      let n := CacheExpression loc index value isVNode in
      wellTyped U n = true ->
      held n = [value] /\ isA JSChildNode value = true
      /\ wellTyped U value = true /\ backReferenceByIndex n = false)
  /\ (forall loc content isStatic isConstant node identifiers
        isRuntimeConstant,
      let n := SimpleExpressionNode loc content isStatic isConstant
                 (Some node) identifiers isRuntimeConstant in
      wellTyped U n = true ->
      held n = [node] /\ isA JSChildNode node = true
      /\ wellTyped U node = true /\ backReferenceByIndex n = false).
Proof.
  split; intros; subst n.
  - repeat split; try reflexivity.
    + by apply wellTyped_conforms in H.
    + apply (wellTyped_held _ _ H). by left.
  - repeat split; try reflexivity.
    + by apply wellTyped_conforms in H.
    + apply (wellTyped_held _ _ H). by left.
Qed.

(** What the four element interfaces declare: in a well-typed tree no
    template container carries a codegen node, at the top or anywhere below
    it; an element of each of the other three variants is well typed without
    a codegen node and with one. *)
Theorem template_container_has_no_codegenNode :
  (forall n, wellTyped U n = true ->
             every templateCompiledAway n = true
             /\ (tagTypeOf n = Some ElementTypes.TEMPLATE ->
                 elementCodegenNode n = None))
  /\ (forall tagType, tagType <> ElementTypes.TEMPLATE ->
        (exists e, wellTyped U e = true /\ tagTypeOf e = Some tagType
                   /\ elementCodegenNode e = None)
        /\ (exists e c, wellTyped U e = true /\ tagTypeOf e = Some tagType
                        /\ elementCodegenNode e = Some c)).
Proof.
  assert (Hone : forall n, conforms U n = true ->
                           templateCompiledAway n = true).
  { intros n Hn. destruct n; try reflexivity.
    match goal with
    | |- templateCompiledAway (ElementNode _ _ _ ?t _ _ _ ?c _) = _ =>
        destruct t; try reflexivity; destruct c; [|reflexivity]
    end.
    simpl in Hn. by rewrite andb_false_r in Hn. }
  split.
  - intros n Hn. split; [by apply (every_impl _ _ Hone)|].
    intros Htag. apply wellTyped_conforms, Hone in Hn.
    destruct n; try discriminate. simpl in Htag. injection Htag as ->.
    match goal with
    | H : templateCompiledAway (ElementNode _ _ _ _ _ _ _ ?c _) = true |- _ =>
        by destruct c
    end.
  - intros tagType Hne. split.
    + exists (ElementNode synthetic Namespaces.HTML "x" tagType false [] []
                None None).
      by destruct tagType.
    + exists (ElementNode synthetic Namespaces.HTML "x" tagType false [] []
                (Some (CacheExpression synthetic 0 (identifier "x") false))
                None).
      eexists. by destruct tagType.
Qed.

(** C8: a node of each generated-code kind carries a span as a field of its
    own (it is read by [locOf], and [setLoc] changes it and nothing else), no
    interface constrains the span, and each kind has a well-typed node whose
    span is the synthetic zero-width one. *)
Theorem generated_code_nodes_carry_span (k : NodeTypes.t) (n : Node)
    (l : SourceLocation) :
  k ∈ generatedCodeKinds -> typeOf n = k ->
  locOf (setLoc l n) = l
  /\ setLoc (locOf n) n = n
  /\ typeOf (setLoc l n) = k
  /\ wellTyped U (setLoc l n) = wellTyped U n
  /\ (exists m, typeOf m = k /\ wellTyped U m = true
                /\ locOf m = synthetic /\ zeroWidth (locOf m) = true).
Proof.
  intros Hk <-. split; [by destruct n|]. split; [by destruct n|].
  split; [by destruct n|]. split; [apply wellTyped_setLoc|].
  exists (smallest (typeOf n)).
  repeat (apply elem_of_cons in Hk as [->|Hk]; [by repeat split|]).
  by apply not_elem_of_nil in Hk.
Qed.

End CatalogueFacts.

(** The theorems above at the sample nodes. *)

Lemma back_reference_by_index_fails :
  AST.wellTyped AST.Sample.undeclared AST.Sample.cachedParagraph = true
  /\ AST.held AST.Sample.cachedParagraph = [AST.Sample.staticParagraph]
  /\ AST.backReferenceByIndex AST.Sample.cachedParagraph = false
  /\ AST.wellTyped AST.Sample.undeclared AST.Sample.hoistedParagraph = true
  /\ AST.held AST.Sample.hoistedParagraph = [AST.Sample.staticParagraph]
  /\ AST.backReferenceByIndex AST.Sample.hoistedParagraph = false.
Proof. repeat split. Qed.

Lemma back_references_hold_the_node_witness :
  AST.wellTyped AST.Sample.undeclared AST.Sample.cachedParagraph = true
  /\ AST.held AST.Sample.cachedParagraph = [AST.Sample.staticParagraph]
  /\ AST.isA AST.JSChildNode AST.Sample.staticParagraph = true
  /\ AST.wellTyped AST.Sample.undeclared AST.Sample.staticParagraph = true
  /\ AST.backReferenceByIndex AST.Sample.cachedParagraph = false.
Proof.
  split; [reflexivity|].
  exact (proj1 (back_references_hold_the_node AST.Sample.undeclared)
           AST.synthetic 0%Z AST.Sample.staticParagraph true eq_refl).
Defined.

Lemma template_container_has_no_codegenNode_witness :
  AST.wellTyped AST.Sample.undeclared AST.Sample.templateContainer = true
  /\ AST.tagTypeOf AST.Sample.templateContainer
     = Some AST.ElementTypes.TEMPLATE
  /\ AST.elementCodegenNode AST.Sample.templateContainer = None
  /\ AST.wellTyped AST.Sample.undeclared AST.Sample.paragraph = true
  /\ AST.elementCodegenNode AST.Sample.paragraph
     = Some AST.Sample.staticParagraph.
Proof.
  split; [reflexivity|]. split; [reflexivity|].
  split; [|split; reflexivity].
  exact (proj2 (proj1 (template_container_has_no_codegenNode
                         AST.Sample.undeclared)
                  AST.Sample.templateContainer eq_refl) eq_refl).
Defined.

Lemma generated_code_nodes_carry_span_witness :
  AST.NodeTypes.JS_CACHE_EXPRESSION ∈ AST.generatedCodeKinds
  /\ AST.typeOf AST.Sample.cachedParagraph = AST.NodeTypes.JS_CACHE_EXPRESSION
  /\ AST.locOf (AST.setLoc AST.synthetic AST.Sample.cachedParagraph)
     = AST.synthetic.
Proof.
  assert (Hk : AST.NodeTypes.JS_CACHE_EXPRESSION ∈ AST.generatedCodeKinds).
  { unfold AST.generatedCodeKinds. do 6 apply list_elem_of_further.
    apply list_elem_of_here. }
  split; [exact Hk|]. split; [reflexivity|].
  exact (proj1 (generated_code_nodes_carry_span AST.Sample.undeclared
                  AST.NodeTypes.JS_CACHE_EXPRESSION AST.Sample.cachedParagraph
                  AST.synthetic Hk eq_refl)).
Defined.

(** ** The transform context *)

Section ContextFacts.
Import AST TransformContext.

Context {ForParseResult ImportItem : Type}.

Abbreviation Root := (RootNode ForParseResult ImportItem).
Abbreviation HoistState :=
  (RootNode ForParseResult ImportItem * list (nat * AST.Node ForParseResult))%type.

Lemma registerHelper_elem (s x : symbol) (root : Root) :
  x ∈ helpers (registerHelper s root) <-> x = s \/ x ∈ helpers root.
Proof.
  unfold registerHelper. destruct (decide (s ∈ helpers root)) as [Hin|Hnin].
  - split; [by right | by intros [->|?]].
  - simpl. rewrite elem_of_app, list_elem_of_singleton. tauto.
Qed.

Lemma registerHelper_NoDup (s : symbol) (root : Root) :
  NoDup (helpers root) -> NoDup (helpers (registerHelper s root)).
Proof.
  intros Hnd. unfold registerHelper.
  destruct (decide (s ∈ helpers root)) as [Hin|Hnin]; [done|].
  simpl. apply NoDup_app. split; [done|]. split; [|apply NoDup_singleton].
  intros x Hx ->%list_elem_of_singleton. done.
Qed.

Lemma registerHelpers_NoDup (ss : list symbol) (root : Root) :
  NoDup (helpers root) -> NoDup (helpers (registerHelpers ss root)).
Proof.
  unfold registerHelpers. revert root.
  induction ss as [|s ss IH]; intros root Hnd; simpl; [done|].
  by apply IH, registerHelper_NoDup.
Qed.

(** C2: registering a helper twice is registering it once; afterwards the
    helpers are the old ones and the registered one; and [Root.helpers] never
    holds a symbol twice, whatever is registered from a root without
    duplicates, in particular from a fresh root. *)
Theorem registerHelper_idempotent (s : symbol) (ss : list symbol)
    (root : Root) :
  registerHelper s (registerHelper s root) = registerHelper s root
  /\ (forall x, x ∈ helpers (registerHelper s root)
                <-> x = s \/ x ∈ helpers root)
  /\ (NoDup (helpers root) -> NoDup (helpers (registerHelpers ss root)))
  /\ (helpers root = [] -> NoDup (helpers (registerHelpers ss root))).
Proof.
  split; [|split; [|split]].
  - assert (Hs : s ∈ helpers (registerHelper s root))
      by (apply registerHelper_elem; by left).
    unfold registerHelper at 1. by rewrite decide_True.
  - intros x. apply registerHelper_elem.
  - apply registerHelpers_NoDup.
  - intros Hnil. apply registerHelpers_NoDup. rewrite Hnil. constructor.
Qed.

Lemma hoistInv_index_lt (st : HoistState) k i node :
  hoistInv st k -> (i, node) ∈ snd st -> i < k.
Proof.
  intros (Hidx & _ & _) Hin.
  assert (Hi : i ∈ (snd st).*1).
  { apply list_elem_of_fmap. by exists (i, node). }
  rewrite Hidx in Hi. apply elem_of_seq in Hi. lia.
Qed.

Lemma hoistStep_inv (st : HoistState) (op : HoistOp) k :
  hoistInv st k ->
  hoistInv (hoistStep st op) (k + (if isHoist op then 1 else 0)).
Proof.
  intros Hinv. destruct st as [root refs].
  assert (Hlt : forall i n, (i, n) ∈ refs -> i < k)
    by (intros i n; apply (hoistInv_index_lt _ _ _ _ Hinv)).
  destruct Hinv as (Hidx & Hlen & Hslot). unfold hoistInv.
  destruct op as [node|j]; simpl in *.
  - split; [|split].
    + by rewrite fmap_app, Hidx, Hlen, Nat.add_1_r, seq_S.
    + rewrite length_app. simpl. lia.
    + intros i n [Hin|Hin]%elem_of_app.
      * rewrite lookup_app_l by (apply Hlt in Hin; lia). by apply Hslot.
      * apply list_elem_of_singleton in Hin. injection Hin as -> ->.
        left. by apply list_lookup_middle.
  - rewrite Nat.add_0_r. split; [done|split].
    + by rewrite length_insert.
    + intros i n Hin. destruct (decide (j = i)) as [->|Hne].
      * right. apply list_lookup_insert_eq. apply Hlt in Hin. lia.
      * rewrite list_lookup_insert_ne by done. by apply Hslot.
Qed.

Lemma hoistCount_cons (op : HoistOp (ForParseResult:=ForParseResult)) ops :
  hoistCount (op :: ops) = (if isHoist op then 1 else 0) + hoistCount ops.
Proof. unfold hoistCount. simpl. by destruct (isHoist op). Qed.

Lemma hoistRun_inv_from (ops : list HoistOp) (st : HoistState) k :
  hoistInv st k -> hoistInv (foldl hoistStep st ops) (k + hoistCount ops).
Proof.
  revert st k. induction ops as [|op ops IH]; intros st k Hinv.
  - simpl. by rewrite Nat.add_0_r.
  - rewrite hoistCount_cons, Nat.add_assoc. simpl.
    by apply IH, hoistStep_inv.
Qed.

Lemma hoistRun_inv (ops : list HoistOp) (root : Root) :
  hoists root = [] -> hoistInv (hoistRun ops root) (hoistCount ops).
Proof.
  intros Hnil. apply (hoistRun_inv_from ops (root, []) 0).
  repeat split; simpl; [by rewrite Hnil|]. intros i n Hin.
  by apply not_elem_of_nil in Hin.
Qed.

(** C6: during a compilation that starts with no hoists, the indices the
    references carry are 0, 1, ... in the order of the hoists, none twice;
    the array has one slot per hoist performed, so the valid indices are the
    numbers below that count; the slot of a reference holds the node the
    reference stands for or a hole, never another node; the next hoist
    returns the next index and leaves the older slots as they are; and any
    next step leaves an older slot as it is or makes it a hole. *)
Theorem hoist_indices_append_only (ops : list HoistOp) (root : Root) :
  hoists root = [] ->
  let st := hoistRun ops root in
  (snd st).*1 = seq 0 (hoistCount ops)
  /\ NoDup ((snd st).*1)
  /\ length (hoists (fst st)) = hoistCount ops
  /\ (forall i, is_Some (hoists (fst st) !! i) <-> i < hoistCount ops)
  /\ (forall i node, (i, node) ∈ snd st ->
        hoists (fst st) !! i = Some (Some node)
        \/ hoists (fst st) !! i = Some None)
  /\ (forall node,
        fst (hoist node (fst st)) = hoistCount ops
        /\ hoists (snd (hoist node (fst st))) !! hoistCount ops
           = Some (Some node)
        /\ forall i, i < hoistCount ops ->
             hoists (snd (hoist node (fst st))) !! i = hoists (fst st) !! i)
  /\ (forall op i, i < hoistCount ops ->
        hoists (fst (hoistStep st op)) !! i = hoists (fst st) !! i
        \/ hoists (fst (hoistStep st op)) !! i = Some None).
Proof.
  intros Hnil st. destruct (hoistRun_inv ops root Hnil) as (Hidx & Hlen & Hslot).
  fold st in Hidx, Hlen, Hslot.
  split; [done|]. split; [rewrite Hidx; apply NoDup_seq|]. split; [done|].
  split; [intros i; by rewrite lookup_lt_is_Some, Hlen|]. split; [done|].
  split.
  - intros node. simpl. split; [done|]. split.
    + rewrite <- Hlen. by apply list_lookup_middle.
    + intros i Hi. apply lookup_app_l. lia.
  - intros [node|j] i Hi; simpl.
    + left. apply lookup_app_l. lia.
    + destruct (decide (j = i)) as [->|Hne].
      * right. apply list_lookup_insert_eq. lia.
      * left. by apply list_lookup_insert_ne.
Qed.

End ContextFacts.

Section ContextSamples.
Import AST TransformContext.

Lemma registerHelper_idempotent_witness :
  helpers TransformContext.Sample.freshRoot = []
  /\ NoDup (helpers (registerHelpers
              [TransformContext.Sample.CREATE_VNODE;
               TransformContext.Sample.TO_DISPLAY_STRING;
               TransformContext.Sample.CREATE_VNODE]
              TransformContext.Sample.freshRoot))
  /\ helpers (registerHelpers
              [TransformContext.Sample.CREATE_VNODE;
               TransformContext.Sample.TO_DISPLAY_STRING;
               TransformContext.Sample.CREATE_VNODE]
              TransformContext.Sample.freshRoot)
     = [TransformContext.Sample.CREATE_VNODE;
        TransformContext.Sample.TO_DISPLAY_STRING].
Proof.
  split; [reflexivity|]. split; [|reflexivity].
  exact (proj2 (proj2 (proj2
           (registerHelper_idempotent TransformContext.Sample.CREATE_VNODE
              [TransformContext.Sample.CREATE_VNODE;
               TransformContext.Sample.TO_DISPLAY_STRING;
               TransformContext.Sample.CREATE_VNODE]
              TransformContext.Sample.freshRoot))) eq_refl).
Defined.

Lemma hoist_indices_append_only_witness :
  hoists TransformContext.Sample.freshRoot = []
  /\ hoists (fst (hoistRun TransformContext.Sample.run
                    TransformContext.Sample.freshRoot))
     = [None; Some (identifier "b"); Some (identifier "c")]
  /\ (snd (hoistRun TransformContext.Sample.run
             TransformContext.Sample.freshRoot)).*1 = [0; 1; 2]
  /\ length (hoists (fst (hoistRun TransformContext.Sample.run
                            TransformContext.Sample.freshRoot)))
     = hoistCount TransformContext.Sample.run.
Proof.
  split; [reflexivity|]. split; [reflexivity|]. split; [reflexivity|].
  exact (proj1 (proj2 (proj2
           (hoist_indices_append_only TransformContext.Sample.run
              TransformContext.Sample.freshRoot eq_refl)))).
Defined.

End ContextSamples.

(** ** The package entry modules *)

Section EntryFacts.
Import Entry.

Lemma strictEq_true (v : option string) (s : string) :
  strictEq v s = true <-> v = Some s.
Proof.
  destruct v as [x|]; simpl; [|by split].
  rewrite String.eqb_eq. split; [by intros -> | by intros [= ->]].
Qed.

Lemma strictEq_false (v : option string) (s : string) :
  strictEq v s = false <-> v <> Some s.
Proof. rewrite <- strictEq_true. by destruct (strictEq v s). Qed.

Lemma select_iff (v : option string) (prod dev : Exports) :
  prod <> dev ->
  ((if strictEq v "production" then prod else dev) = prod
   <-> v = Some "production")
  /\ ((if strictEq v "production" then prod else dev) = dev
      <-> v <> Some "production").
Proof.
  intros Hne. destruct (strictEq v "production") eqn:E.
  - apply strictEq_true in E. split; split; intros; congruence.
  - apply strictEq_false in E. split; split; intros; congruence.
Qed.

(** C10: each entry module exports one of its two bundles, chosen by
    [NODE_ENV] alone: the [.prod] bundle exactly when [process.env.NODE_ENV]
    is the string 'production', and the development bundle for every other
    value, [undefined] included. *)
Theorem entry_selects_bundle_by_NODE_ENV (env env' : gmap string string) :
  (compiler_ssr_index env = require "./dist/compiler-ssr.cjs.prod.js"
   <-> env !! "NODE_ENV" = Some "production")
  /\ (compiler_ssr_index env = require "./dist/compiler-ssr.cjs.js"
      <-> env !! "NODE_ENV" <> Some "production")
  /\ (template_explorer_index env
      = require "./dist/template-explorer.cjs.prod.js"
      <-> env !! "NODE_ENV" = Some "production")
  /\ (template_explorer_index env = require "./dist/template-explorer.cjs.js"
      <-> env !! "NODE_ENV" <> Some "production")
  /\ (env !! "NODE_ENV" = env' !! "NODE_ENV" ->
      compiler_ssr_index env = compiler_ssr_index env'
      /\ template_explorer_index env = template_explorer_index env').
Proof.
  unfold compiler_ssr_index, template_explorer_index.
  split; [apply select_iff; discriminate|].
  split; [apply select_iff; discriminate|].
  split; [apply select_iff; discriminate|].
  split; [apply select_iff; discriminate|].
  intros E. by rewrite E.
Qed.

Lemma entry_selects_bundle_by_NODE_ENV_witness :
  compiler_ssr_index ∅ = require "./dist/compiler-ssr.cjs.js"
  /\ compiler_ssr_index {["NODE_ENV" := "production"]}
     = require "./dist/compiler-ssr.cjs.prod.js"
  /\ compiler_ssr_index {["NODE_ENV" := "Production"]}
     = require "./dist/compiler-ssr.cjs.js"
  /\ template_explorer_index {["NODE_ENV" := "development"]}
     = require "./dist/template-explorer.cjs.js"
  /\ (<["HOME" := "/root"]> {["NODE_ENV" := "production"]} : gmap string string)
       !! "NODE_ENV"
     = ({["NODE_ENV" := "production"]} : gmap string string) !! "NODE_ENV"
  /\ compiler_ssr_index (<["HOME" := "/root"]> {["NODE_ENV" := "production"]})
     = compiler_ssr_index {["NODE_ENV" := "production"]}.
Proof.
  split; [reflexivity|]. split; [reflexivity|]. split; [reflexivity|].
  split; [reflexivity|]. split; [reflexivity|].
  exact (proj1 (proj2 (proj2 (proj2 (proj2
           (entry_selects_bundle_by_NODE_ENV
              (<["HOME" := "/root"]> {["NODE_ENV" := "production"]})
              {["NODE_ENV" := "production"]}))))
           eq_refl)).
Defined.

End EntryFacts.

(** * Further properties of the code *)

(** ** makeMap: how the entries of [str] decide the predicate *)

Section MakeMapEntries.
Import Shared.

(** Splitting distributes over a separator: the pieces of [a,b] are the
    pieces of [a] followed by the pieces of [b]. *)
Lemma split_app sep a b :
  split sep (a +:+ String sep b) = split sep a ++ split sep b.
Proof.
  induction a as [|c a IH]; simpl.
  - by rewrite Ascii.eqb_refl.
  - destruct (Ascii.eqb c sep); [by rewrite IH|].
    rewrite IH. pose proof (split_not_nil sep a) as Hnil.
    by destruct (split sep a).
Qed.

Lemma split_free sep piece :
  occurs sep piece = false -> split sep piece = [piece].
Proof.
  induction piece as [|c piece IH]; simpl; [done|].
  intros [Hc Hrest]%orb_false_elim. by rewrite Hc, IH.
Qed.

Lemma split_join sep pieces :
  pieces <> [] -> Forall (fun p => occurs sep p = false) pieces ->
  split sep (join sep pieces) = pieces.
Proof.
  induction pieces as [|p pieces IH]; [done|]. intros _ Hfree.
  apply Forall_cons in Hfree as [Hp Hfree].
  destruct pieces as [|q pieces]; [by apply split_free|].
  rewrite join_cons by done. rewrite split_app, split_free by done.
  by rewrite IH.
Qed.

Lemma bool_decide_elem_app (key : string) (l1 l2 : list string) :
  bool_decide (key ∈ l1 ++ l2)
  = bool_decide (key ∈ l1) || bool_decide (key ∈ l2).
Proof.
  apply eq_true_iff_eq.
  rewrite orb_true_iff, !bool_decide_eq_true. apply elem_of_app.
Qed.

Lemma makeMap_comma str1 str2 mode key :
  makeMap (str1 +:+ String "," str2) mode key
  = makeMap str1 mode key || makeMap str2 mode key.
Proof. by rewrite !makeMap_unfold, split_app, bool_decide_elem_app. Qed.

(** X1: the predicate of [makeMap(a + ',' + b)] is the disjunction of the
    predicates of [makeMap(a)] and [makeMap(b)], with or without
    [expectsLowerCase]; so appending entries never turns an accepted key into
    a rejected one. *)
Theorem makeMap_concat (a b key : string) (expectsLowerCase : option bool) :
  makeMap (a +:+ "," +:+ b) expectsLowerCase key
  = makeMap a expectsLowerCase key || makeMap b expectsLowerCase key
  /\ (makeMap a expectsLowerCase key = true ->
      makeMap (a +:+ "," +:+ b) expectsLowerCase key = true
      /\ makeMap (b +:+ "," +:+ a) expectsLowerCase key = true).
Proof.
  change ("," +:+ b) with (String "," b). change ("," +:+ a) with (String "," a).
  rewrite !makeMap_comma. split; [done|].
  intros ->. by rewrite orb_true_r.
Qed.

Lemma makeMap_concat_witness :
  makeMap "slot" None "slot" = true
  /\ makeMap "slot,component" None "slot" = true
  /\ makeMap "component,slot" None "slot" = true.
Proof.
  split; [reflexivity|].
  exact (proj2 (makeMap_concat "slot" "component" "slot" None) eq_refl).
Defined.

(** X2: the order of the entries and their repetition do not matter:
    [makeMap(a + ',' + b)] and [makeMap(b + ',' + a)] are the same predicate,
    and so are [makeMap(a + ',' + a)] and [makeMap(a)]. *)
Theorem makeMap_order_and_repetition (a b key : string)
    (expectsLowerCase : option bool) :
  makeMap (a +:+ "," +:+ b) expectsLowerCase key
  = makeMap (b +:+ "," +:+ a) expectsLowerCase key
  /\ makeMap (a +:+ "," +:+ a) expectsLowerCase key
     = makeMap a expectsLowerCase key.
Proof.
  change ("," +:+ b) with (String "," b). change ("," +:+ a) with (String "," a).
  rewrite !makeMap_comma. split; [apply orb_comm | apply orb_diag].
Qed.

(** Lower-casing keeps the commas of a string and adds none. *)
Lemma toLowerCaseUnit_comma c :
  Ascii.eqb (toLowerCaseUnit c) "," = Ascii.eqb c ",".
Proof. destruct c as [[] [] [] [] [] [] [] []]; reflexivity. Qed.

Lemma occurs_toLowerCase s : occurs "," (toLowerCase s) = occurs "," s.
Proof.
  induction s as [|c s IH]; simpl; [done|].
  by rewrite toLowerCaseUnit_comma, IH.
Qed.

(** X3: a key that contains a comma is rejected whatever [str] is, with or
    without [expectsLowerCase]: no entry of [str.split(',')] has a comma. *)
Theorem makeMap_rejects_keys_with_comma (str key : string)
    (expectsLowerCase : option bool) :
  occurs "," key = true -> makeMap str expectsLowerCase key = false.
Proof.
  intros Hkey. rewrite makeMap_unfold. apply bool_decide_eq_false_2.
  intros Hin%split_pieces_free.
  destruct (truthy expectsLowerCase);
    [rewrite occurs_toLowerCase in Hin|]; congruence.
Qed.

Lemma makeMap_rejects_keys_with_comma_witness :
  occurs "," "a,b" = true /\ makeMap "a,b" None "a,b" = false.
Proof.
  split; [reflexivity|].
  exact (makeMap_rejects_keys_with_comma "a,b" "a,b" None eq_refl).
Defined.

End MakeMapEntries.

(** ** makeMap: lower-case lists, the empty key, and lists built by join *)

Section MakeMapUsage.
Import Shared.

Lemma toLowerCase_idemp s : toLowerCase (toLowerCase s) = toLowerCase s.
Proof.
  induction s as [|c s IH]; simpl; [done|].
  by rewrite toLowerCaseUnit_idemp, IH.
Qed.

Lemma toLowerCase_fixed s : hasUpperCase s = false -> toLowerCase s = s.
Proof.
  induction s as [|c s IH]; simpl; [done|].
  intros [Hc Hs]%orb_false_elim. rewrite IH by done.
  unfold isUpperCaseUnit in Hc. apply negb_false_iff, Ascii.eqb_eq in Hc.
  by rewrite Hc.
Qed.

Lemma split_pieces_lower sep str piece :
  hasUpperCase str = false -> piece ∈ split sep str ->
  hasUpperCase piece = false.
Proof.
  revert piece. induction str as [|c rest IH]; simpl; intros piece Hlow Hin.
  - apply list_elem_of_singleton in Hin. by subst.
  - apply orb_false_elim in Hlow as [Hc Hrest].
    destruct (Ascii.eqb c sep).
    + apply elem_of_cons in Hin as [->|Hin]; [done | by apply IH].
    + pose proof (split_not_nil sep rest) as Hnil.
      destruct (split sep rest) as [|p ps]; [congruence|].
      apply elem_of_cons in Hin as [->|Hin].
      * simpl. rewrite Hc. apply IH; [done | by left].
      * apply IH; [done | by right].
Qed.

(** X4: with [expectsLowerCase] the predicate does not see the case of the
    key; and when [str] itself has no upper-case letter the predicate is
    membership up to case: it accepts a key exactly when some entry equals it
    after lower-casing both, and it accepts every key that the predicate
    without [expectsLowerCase] accepts. *)
Theorem makeMap_case_insensitive (str key : string) :
  makeMap str (Some true) (toLowerCase key) = makeMap str (Some true) key
  /\ (hasUpperCase str = false ->
      (makeMap str (Some true) key = true
       <-> exists entry, entry ∈ split "," str
                         /\ toLowerCase entry = toLowerCase key)
      /\ (makeMap str None key = true ->
          makeMap str (Some true) key = true)).
Proof.
  rewrite !makeMap_unfold. simpl truthy. cbv iota.
  rewrite toLowerCase_idemp. split; [done|]. intros Hlow.
  rewrite !bool_decide_eq_true. split; [split|].
  - intros Hin. exists (toLowerCase key). split; [done|].
    apply toLowerCase_idemp.
  - intros (entry & Hin & <-).
    by rewrite toLowerCase_fixed by by apply (split_pieces_lower "," str).
  - intros Hin.
    by rewrite toLowerCase_fixed by by apply (split_pieces_lower "," str).
Qed.

Lemma makeMap_case_insensitive_witness :
  hasUpperCase "slot,component" = false
  /\ makeMap "slot,component" (Some true) "SLOT" = true
  /\ makeMap "slot,component" None "SLOT" = false.
Proof.
  split; [reflexivity|]. split; [|reflexivity].
  apply (proj1 (proj2 (makeMap_case_insensitive "slot,component" "SLOT")
                  eq_refl)).
  exists "slot". split; [|reflexivity].
  apply list_elem_of_here.
Defined.

(** The empty piece: it is the first piece when the string starts with the
    separator, and a later piece when the string ends with the separator or
    has the separator twice in a row. *)
Lemma split_tail_empty sep str pieces piece :
  split sep str = piece :: pieces -> "" ∈ pieces ->
  (exists a, str = a +:+ String sep "")
  \/ (exists a b, str = a +:+ String sep (String sep b)).
Proof.
  revert pieces piece.
  induction str as [|c rest IH]; simpl; intros pieces piece Hsplit Hin.
  - injection Hsplit as <- <-. by apply not_elem_of_nil in Hin.
  - destruct (Ascii.eqb_spec c sep) as [->|Hne].
    + injection Hsplit as <- <-. destruct rest as [|d rest'].
      * left. by exists "".
      * simpl in Hin. destruct (Ascii.eqb_spec d sep) as [->|Hd].
        -- right. by exists "", rest'.
        -- pose proof (split_not_nil sep rest') as Hnil.
           destruct (split sep rest') as [|p ps] eqn:E; [congruence|].
           apply elem_of_cons in Hin as [?|Hin]; [discriminate|].
           destruct (IH ps (String d p)) as [[a ->]|(a & b & ->)].
           ++ simpl. destruct (Ascii.eqb_spec d sep); [done|]. by rewrite E.
           ++ done.
           ++ left. by exists (String sep a).
           ++ right. by exists (String sep a), b.
    + pose proof (split_not_nil sep rest) as Hnil.
      destruct (split sep rest) as [|p ps] eqn:E; [congruence|].
      injection Hsplit as <- <-.
      destruct (IH ps p eq_refl Hin) as [[a ->]|(a & b & ->)].
      * left. by exists (String c a).
      * right. by exists (String c a), b.
Qed.

(** X5: without [expectsLowerCase] the empty key is accepted exactly when
    [str] has an empty entry: [str] is empty, starts with a comma, ends with a
    comma, or has two commas in a row. *)
Theorem makeMap_empty_key (str : string) :
  makeMap str None "" = true
  <-> str = ""
      \/ (exists b, str = "," +:+ b)
      \/ (exists a, str = a +:+ ",")
      \/ (exists a b, str = a +:+ ",," +:+ b).
Proof.
  rewrite makeMap_unfold. simpl truthy. cbv iota. rewrite bool_decide_eq_true.
  split.
  - intros Hin. destruct str as [|c rest]; [by left|]. right.
    simpl in Hin. destruct (Ascii.eqb_spec c ",") as [->|Hne].
    { left. by exists rest. }
    right. pose proof (split_not_nil "," rest) as Hnil.
    destruct (split "," rest) as [|p ps] eqn:E; [congruence|].
    apply elem_of_cons in Hin as [?|Hin]; [discriminate|].
    destruct (split_tail_empty _ _ _ _ E Hin) as [[a ->]|(a & b & ->)].
    + left. by exists (String c a).
    + right. by exists (String c a), b.
  - intros [->|[[b ->]|[[a ->]|(a & b & ->)]]].
    + by left.
    + by left.
    + change (a +:+ ",") with (a +:+ String "," ""). rewrite split_app.
      apply elem_of_app. right. by left.
    + change (",," +:+ b) with (String "," (String "," b)).
      rewrite split_app. apply elem_of_app. right. by left.
Qed.

(** X6: for a list of at least one entry, none with a comma, the predicate
    of [makeMap(list.join(','))] is membership in the list.  The empty list
    is the exception: its join is the empty string, whose predicate accepts
    the empty key. *)
Theorem makeMap_of_join (entries : list string) (key : string) :
  makeMap (join "," []) None "" = true
  /\ (entries <> [] ->
      Forall (fun entry => occurs "," entry = false) entries ->
      split "," (join "," entries) = entries
      /\ makeMap (join "," entries) None key = bool_decide (key ∈ entries)).
Proof.
  split; [reflexivity|]. intros Hne Hfree.
  rewrite makeMap_unfold. simpl truthy. cbv iota.
  by rewrite split_join.
Qed.

Lemma makeMap_of_join_witness :
  ["div"; "span"; ""] <> []
  /\ Forall (fun entry => occurs "," entry = false) ["div"; "span"; ""]
  /\ join "," ["div"; "span"; ""] = "div,span,"
  /\ makeMap "div,span," None "span" = true.
Proof.
  assert (Hne : ["div"; "span"; ""] <> []) by discriminate.
  assert (Hfree : Forall (fun entry => occurs "," entry = false)
                    ["div"; "span"; ""])
    by (repeat constructor).
  split; [exact Hne|]. split; [exact Hfree|]. split; [reflexivity|].
  exact (proj2 (proj2 (makeMap_of_join ["div"; "span"; ""] "span") Hne Hfree)).
Defined.

Lemma split_length sep str :
  length (split sep str) = S (countOf sep str).
Proof.
  induction str as [|c rest IH]; simpl; [done|].
  destruct (Ascii.eqb c sep); simpl; [by rewrite IH|].
  pose proof (split_not_nil sep rest) as Hnil.
  destruct (split sep rest); [congruence | exact IH].
Qed.

(** X12: the entries that [makeMap] reads out of [str]: there is one more
    entry than [str] has commas (so at least one), no entry contains a comma,
    and the entries joined by commas are [str] again, so two different
    strings never give the same list of entries. *)
Theorem makeMap_entries_round_trip (str str' : string) :
  length (split "," str) = S (countOf "," str)
  /\ Forall (fun entry => occurs "," entry = false) (split "," str)
  /\ join "," (split "," str) = str
  /\ (split "," str = split "," str' -> str = str').
Proof.
  split; [apply split_length|]. split; [|split].
  - apply Forall_forall. intros entry. apply split_pieces_free.
  - apply join_split.
  - intros Heq. by rewrite <- (join_split "," str), Heq, join_split.
Qed.

Lemma makeMap_entries_round_trip_witness :
  split "," "a,,b" = split "," "a,,b"
  /\ length (split "," "a,,b") = 3
  /\ join "," ["a"; ""; "b"] = "a,,b".
Proof.
  split; [reflexivity|]. split; [reflexivity|].
  exact (proj1 (proj2 (proj2 (makeMap_entries_round_trip "a,,b" "a,,b")))).
Defined.

End MakeMapUsage.

(** ** The node catalogue: how the union types and interfaces fit together *)

Section CatalogueUnions.
Import AST.

(** The kind tags are the numbers 0 to 26, one each, so comparing tags tells
    the interfaces apart. *)
Lemma NodeTypes_toNumber_inj (a b : NodeTypes.t) :
  NodeTypes.toNumber a = NodeTypes.toNumber b -> a = b.
Proof. destruct a, b; simpl; intros H; first [reflexivity | discriminate H]. Qed.

Lemma NodeTypes_eqb_eq (a b : NodeTypes.t) :
  NodeTypes.eqb a b = true <-> a = b.
Proof.
  unfold NodeTypes.eqb. rewrite Z.eqb_eq.
  split; [apply NodeTypes_toNumber_inj | by intros ->].
Qed.

(** X7: how the union types of index.ts overlap.  Every [ExpressionNode] is a
    [JSChildNode] and every [TemplateTextChildNode] is a [TemplateChildNode];
    a compound expression is the only kind that is both a template child and
    a [JSChildNode]; assignment and sequence expressions are the only kinds
    that are both a [JSChildNode] and an [SSRCodegenNode]; no template child
    is an [SSRCodegenNode]; and the kinds in none of the three unions are the
    root, attributes, directives and object properties. *)
Theorem union_types_overlap (k : NodeTypes.t) :
  (NodeTypes.among ExpressionNode k = true ->
   NodeTypes.among JSChildNode k = true)
  /\ (NodeTypes.among TemplateTextChildNode k = true ->
      NodeTypes.among TemplateChildNode k = true)
  /\ NodeTypes.among TemplateChildNode k && NodeTypes.among JSChildNode k
     = NodeTypes.eqb k NodeTypes.COMPOUND_EXPRESSION
  /\ NodeTypes.among JSChildNode k && NodeTypes.among SSRCodegenNode k
     = NodeTypes.among [NodeTypes.JS_ASSIGNMENT_EXPRESSION;
                        NodeTypes.JS_SEQUENCE_EXPRESSION] k
  /\ NodeTypes.among TemplateChildNode k && NodeTypes.among SSRCodegenNode k
     = false
  /\ NodeTypes.among (TemplateChildNode ++ JSChildNode ++ SSRCodegenNode) k
     = negb (NodeTypes.among [NodeTypes.ROOT; NodeTypes.ATTRIBUTE;
                              NodeTypes.DIRECTIVE; NodeTypes.JS_PROPERTY] k).
Proof. destruct k; repeat split; try reflexivity; discriminate. Qed.

Lemma union_types_overlap_witness :
  NodeTypes.among ExpressionNode NodeTypes.SIMPLE_EXPRESSION = true
  /\ NodeTypes.among JSChildNode NodeTypes.SIMPLE_EXPRESSION = true
  /\ NodeTypes.among TemplateChildNode NodeTypes.SIMPLE_EXPRESSION = false.
Proof.
  split; [reflexivity|]. split; [|reflexivity].
  exact (proj1 (union_types_overlap NodeTypes.SIMPLE_EXPRESSION) eq_refl).
Defined.

End CatalogueUnions.

Section CatalogueInterfaces.
Import AST.

Context {ForParseResult : Type} (U : Undeclared ForParseResult).

Abbreviation ANode := (AST.Node ForParseResult).

Lemma isA_ExpressionNode_JSChildNode (n : ANode) :
  isA ExpressionNode n = true -> isA JSChildNode n = true.
Proof. by destruct n. Qed.

Lemma isRenderSlotCall_call (n : ANode) :
  isRenderSlotCall U n = true -> isA [NodeTypes.JS_CALL_EXPRESSION] n = true.
Proof. by destruct n. Qed.

Lemma isDirectiveArgumentNode_array (n : ANode) :
  isDirectiveArgumentNode n = true ->
  isA [NodeTypes.JS_ARRAY_EXPRESSION] n = true.
Proof. by destruct n. Qed.

Lemma isA_ObjectExpression_JSChildNode (n : ANode) :
  isA [NodeTypes.JS_OBJECT_EXPRESSION] n = true -> isA JSChildNode n = true.
Proof. by destruct n. Qed.

(** X8: the codegen node of an element of any variant, and of a text call,
    is a [JSChildNode] whenever it is set, and is itself well typed; so it
    can stand wherever a [JSChildNode] is expected (a hoist, the value of a
    cache expression, a branch of a conditional). *)
Theorem codegenNode_is_JSChildNode (n c : ANode) :
  wellTyped U n = true ->
  (elementCodegenNode n = Some c ->
   isA JSChildNode c = true /\ wellTyped U c = true)
  /\ (forall l content, n = TextCallNode l content c ->
      isA JSChildNode c = true /\ wellTyped U c = true).
Proof.
  intros Hwt. pose proof (wellTyped_conforms U n Hwt) as Hc. split.
  - intros Hcg. destruct n; try discriminate Hcg. simpl in Hcg. subst.
    split.
    + simpl in Hc. apply andb_prop in Hc as [_ Hc].
      match goal with
      | H : match ?t with _ => _ end = true |- _ => destruct t
      end; try discriminate Hc; apply andb_prop in Hc as [Hc _]; simpl in Hc.
      * by destruct c.
      * by destruct c.
      * apply orb_prop in Hc as [Hc|Hc]; destruct c; done.
    + apply (wellTyped_held U _ c Hwt). simpl.
      rewrite !elem_of_app. right. right. apply list_elem_of_here.
  - intros l content ->. split.
    + simpl in Hc. apply andb_prop in Hc as [_ Hc]. by destruct c.
    + apply (wellTyped_held U _ c Hwt). simpl. right. by left.
Qed.

#[local] Arguments isA : simpl never.

Lemma isSlotName_argument (name : Slot ANode) :
  isSlotName name = true ->
  match name with
  | OfNode c =>
      isA JSChildNode c || isA SSRCodegenNode c || isA TemplateChildNode c
  | OfNodes l => forallb (isA TemplateChildNode) l
  | _ => true
  end = true.
Proof.
  destruct name as [| |e|]; try done. simpl.
  intros He%isA_ExpressionNode_JSChildNode. by rewrite He.
Qed.

Ltac refine_cases H :=
  repeat match type of H with
         | match ?x with _ => _ end = true => destruct x; try discriminate H
         end.

(** X9: the interfaces that refine another one stay inside it.  A
    [DirectiveArgumentNode] and a [DirectiveArguments] node satisfy the
    constraint of [ArrayExpression]; a [RenderSlotCall] satisfies the
    constraint of [CallExpression] as soon as every [PropsExpression] is of a
    kind that [CallExpression] accepts as an argument. *)
Theorem refined_interfaces_conform (n : ANode) :
  (isDirectiveArgumentNode n = true -> conforms U n = true)
  /\ (isDirectiveArguments n = true -> conforms U n = true)
  /\ ((forall p, isPropsExpression U p = true ->
                 isA JSChildNode p || isA SSRCodegenNode p
                 || isA TemplateChildNode p = true) ->
      isRenderSlotCall U n = true -> conforms U n = true).
Proof.
  split; [|split].
  - intros H. destruct n; try discriminate H. simpl in H |- *.
    refine_cases H; simpl;
      repeat match type of H with
             | _ && _ = true => apply andb_prop in H as [H ?]
             end;
      rewrite ?isA_ExpressionNode_JSChildNode,
        ?isA_ObjectExpression_JSChildNode by done;
      reflexivity.
  - intros H. destruct n; try discriminate H. simpl in H |- *.
    apply forallb_forall. rewrite forallb_forall in H.
    intros e He. specialize (H e He).
    destruct e as [| |d|]; try discriminate H.
    apply isDirectiveArgumentNode_array in H. by destruct d.
  - intros Hprops H. destruct n; try discriminate H.
    simpl in H |- *.
    match type of H with
    | match ?callee with _ => _ end = true =>
        destruct callee; try discriminate H
    end.
    apply andb_prop in H as [_ H].
    refine_cases H; simpl;
      repeat match type of H with
             | _ && _ = true => apply andb_prop in H as [H ?]
             end;
      repeat match goal with
             | Hp : isPropsExpression U ?p = true |- _ =>
                 apply Hprops in Hp; rewrite Hp
             | Hn : isSlotName ?name = true |- _ =>
                 apply isSlotName_argument in Hn; rewrite Hn
             | Hf : forallb _ ?l = true |- _ => rewrite Hf; clear Hf
             end;
      reflexivity.
Qed.


End CatalogueInterfaces.

Section CatalogueInterfaceSamples.
Import AST.

Lemma codegenNode_is_JSChildNode_witness :
  wellTyped Sample.undeclared Sample.paragraph = true
  /\ elementCodegenNode Sample.paragraph = Some Sample.staticParagraph
  /\ isA JSChildNode Sample.staticParagraph = true.
Proof.
  split; [reflexivity|]. split; [reflexivity|].
  exact (proj1 (proj1 (codegenNode_is_JSChildNode Sample.undeclared
                         Sample.paragraph Sample.staticParagraph eq_refl)
                  eq_refl)).
Defined.

Lemma refined_interfaces_conform_witness :
  (forall p, isPropsExpression Sample.undeclaredProps p = true ->
             isA JSChildNode p || isA SSRCodegenNode p
             || isA TemplateChildNode p = true)
  /\ isRenderSlotCall Sample.undeclaredProps Sample.slotCall = true
  /\ conforms Sample.undeclaredProps Sample.slotCall = true.
Proof.
  assert (Hp : forall p, isPropsExpression Sample.undeclaredProps p = true ->
                         isA JSChildNode p || isA SSRCodegenNode p
                         || isA TemplateChildNode p = true).
  { intros p Hp. simpl in Hp. destruct p; first [discriminate Hp | reflexivity]. }
  split; [exact Hp|]. split; [reflexivity|].
  exact (proj2 (proj2 (refined_interfaces_conform Sample.undeclaredProps
                         Sample.slotCall)) Hp eq_refl).
Defined.


End CatalogueInterfaceSamples.

(** ** The entry modules under changes of the environment *)

Section EntryEnvironment.
Import Entry.

Lemma strictEq_production_cases (v : option string) :
  strictEq v "production" = true /\ v = Some "production"
  \/ strictEq v "production" = false /\ v <> Some "production".
Proof.
  destruct (strictEq v "production") eqn:E.
  - left. split; [done | by apply strictEq_true].
  - right. split; [done | by apply strictEq_false].
Qed.

(** X11: setting or deleting any variable other than [NODE_ENV] leaves the
    export of both entry modules as it was; setting [NODE_ENV] to
    'production' makes both export their [.prod] bundle and deleting it makes
    both export their development bundle, whatever else the environment
    holds; and in one environment the two modules always choose alike. *)
Theorem entries_follow_NODE_ENV (env : gmap string string) (k v : string) :
  (k <> "NODE_ENV" ->
   compiler_ssr_index (<[k := v]> env) = compiler_ssr_index env
   /\ compiler_ssr_index (delete k env) = compiler_ssr_index env
   /\ template_explorer_index (<[k := v]> env) = template_explorer_index env
   /\ template_explorer_index (delete k env) = template_explorer_index env)
  /\ compiler_ssr_index (<["NODE_ENV" := "production"]> env)
     = require "./dist/compiler-ssr.cjs.prod.js"
  /\ template_explorer_index (<["NODE_ENV" := "production"]> env)
     = require "./dist/template-explorer.cjs.prod.js"
  /\ compiler_ssr_index (delete "NODE_ENV" env)
     = require "./dist/compiler-ssr.cjs.js"
  /\ template_explorer_index (delete "NODE_ENV" env)
     = require "./dist/template-explorer.cjs.js"
  /\ (compiler_ssr_index env = require "./dist/compiler-ssr.cjs.prod.js"
      <-> template_explorer_index env
          = require "./dist/template-explorer.cjs.prod.js").
Proof.
  unfold compiler_ssr_index, template_explorer_index.
  split; [|split; [|split; [|split; [|split]]]].
  - intros Hk. by rewrite lookup_insert_ne, lookup_delete_ne by done.
  - by rewrite lookup_insert_eq.
  - by rewrite lookup_insert_eq.
  - by rewrite lookup_delete_eq.
  - by rewrite lookup_delete_eq.
  - destruct (strictEq_production_cases (env !! "NODE_ENV"))
      as [[-> _]|[-> _]]; split; first [done | discriminate].
Qed.

Lemma entries_follow_NODE_ENV_witness :
  "DEBUG" <> "NODE_ENV"
  /\ compiler_ssr_index (<["DEBUG" := "1"]> {["NODE_ENV" := "production"]})
     = require "./dist/compiler-ssr.cjs.prod.js".
Proof.
  assert (Hk : "DEBUG" <> "NODE_ENV") by discriminate.
  split; [exact Hk|].
  exact (proj1 (proj1 (entries_follow_NODE_ENV
                         {["NODE_ENV" := "production"]} "DEBUG" "1") Hk)).
Defined.

End EntryEnvironment.

(** ** The passes over the tree *)

Section PassFacts.
Import AST Phases.

Context {ForParseResult : Type}.
Context (P : Policy ForParseResult) (U : Undeclared ForParseResult).

Abbreviation TNode := (AST.Node ForParseResult).

Lemma traverse_unfold (f : TNode -> TNode) (n : TNode) :
  traverse f n = f (withKids n (map (traverse f) (templateKids n))).
Proof. by destruct n. Qed.

Lemma templateAll_unfold (p : TNode -> bool) (n : TNode) :
  templateAll p n = p n && forallb (templateAll p) (templateKids n).
Proof. by destruct n. Qed.

Lemma templateKids_held (n k : TNode) : k ∈ templateKids n -> k ∈ held n.
Proof.
  destruct n; simpl; intros Hk; try by apply not_elem_of_nil in Hk.
  all: rewrite ?elem_of_cons, !elem_of_app; tauto.
Qed.

Lemma templateKids_withKids (n : TNode) (g : TNode -> TNode) :
  templateKids (withKids n (map g (templateKids n))) = map g (templateKids n).
Proof. by destruct n. Qed.

Lemma typeOf_withKids (n : TNode) (kids : list TNode) :
  typeOf (withKids n kids) = typeOf n.
Proof. by destruct n. Qed.

Lemma typeOf_traverse (f : TNode -> TNode) (n : TNode) :
  (forall m, typeOf (f m) = typeOf m) -> typeOf (traverse f n) = typeOf n.
Proof. intros Hf. by rewrite traverse_unfold, Hf, typeOf_withKids. Qed.

(** A pass that changes one node at a time, keeping its kind and the
    template nodes below it, carries a property of the nodes through the
    tree. *)
Lemma templateAll_traverse (p q : TNode -> bool) (f : TNode -> TNode) :
  (forall m, templateKids (f m) = templateKids m) ->
  (forall m, typeOf (f m) = typeOf m) ->
  (forall m kids, p m = true ->
                  map typeOf kids = map typeOf (templateKids m) ->
                  q (f (withKids m kids)) = true) ->
  forall n, templateAll p n = true -> templateAll q (traverse f n) = true.
Proof.
  intros Hkids Htype Hstep n.
  induction n as [n IH] using Node_held_ind.
  rewrite traverse_unfold, (templateAll_unfold p), (templateAll_unfold q).
  intros [Hp Hall]%andb_prop. apply andb_true_intro. split.
  - apply Hstep; [done|]. rewrite map_map. apply map_ext.
    intros k. by apply typeOf_traverse.
  - rewrite Hkids, templateKids_withKids. apply forallb_forall.
    intros k' Hk'. apply in_map_iff in Hk' as (k & <- & Hk).
    rewrite Forall_forall in IH. rewrite forallb_forall in Hall.
    apply IH; [|by apply Hall].
    by apply templateKids_held, list_elem_of_In.
Qed.

Lemma templateAll_impl (p q : TNode -> bool) :
  (forall m, p m = true -> q m = true) ->
  forall n, templateAll p n = true -> templateAll q n = true.
Proof.
  intros Hpq n. induction n as [n IH] using Node_held_ind.
  rewrite !templateAll_unfold. intros [Hp Hall]%andb_prop.
  apply andb_true_intro. split; [by apply Hpq|].
  rewrite forallb_forall in Hall. apply forallb_forall. intros k Hk.
  rewrite Forall_forall in IH.
  apply IH; [by apply templateKids_held, list_elem_of_In | by apply Hall].
Qed.

(** The three node transforms change the codegen node of an element and
    nothing else. *)
Lemma setCodegenNode_kids (c n : TNode) :
  templateKids (setCodegenNode c n) = templateKids n
  /\ typeOf (setCodegenNode c n) = typeOf n.
Proof. by destruct n. Qed.

Ltac node_transform n :=
  destruct n; try done;
  repeat match goal with
         | |- context [match ?x with _ => _ end] => destruct x; try done
         end.

Lemma lowerElement_kids (n : TNode) :
  templateKids (lowerElement P n) = templateKids n
  /\ typeOf (lowerElement P n) = typeOf n.
Proof. unfold lowerElement. node_transform n. Qed.

Lemma hoistElement_kids (n : TNode) :
  templateKids (hoistElement P n) = templateKids n
  /\ typeOf (hoistElement P n) = typeOf n.
Proof. unfold hoistElement. node_transform n. Qed.

Lemma cacheElement_kids (n : TNode) :
  templateKids (cacheElement P n) = templateKids n
  /\ typeOf (cacheElement P n) = typeOf n.
Proof. unfold cacheElement. node_transform n. Qed.

(** What each node transform does to the state of an element. *)
Lemma codegenState_withKids (b : bool) (n : TNode) (kids : list TNode) :
  codegenState b (withKids n kids) = codegenState b n.
Proof. by destruct n. Qed.

Ltac element_state b :=
  unfold codegenState;
  repeat match goal with
         | |- context [match ?x with _ => _ end] =>
             first [ is_var x
                   | lazymatch x with
                     | isStaticNode _ _ => idtac
                     | isOnce _ _ => idtac
                     end ];
             destruct x; simpl
         end;
  try done; try (destruct b; done).

Lemma lowerElement_state (b : bool) (n : TNode) :
  codegenState b n = true -> codegenState true (lowerElement P n) = true.
Proof. unfold lowerElement. destruct n; try done. element_state b. Qed.

Lemma hoistElement_state (b : bool) (n : TNode) :
  codegenState b n = true -> codegenState b (hoistElement P n) = true.
Proof. unfold hoistElement. destruct n; try done. element_state b. Qed.

Lemma cacheElement_state (b : bool) (n : TNode) :
  codegenState b n = true -> codegenState b (cacheElement P n) = true.
Proof. unfold cacheElement. destruct n; try done. element_state b. Qed.

Lemma runPass_state (b : bool) (pass : Pass) (n : TNode) :
  templateAll (codegenState b) n = true ->
  templateAll (codegenState (b || isLower pass)) (runPass P pass n) = true.
Proof.
  destruct pass; simpl; rewrite ?orb_true_r, ?orb_false_r; [| | |done].
  - apply templateAll_traverse; try apply lowerElement_kids.
    intros m kids Hm _. apply (lowerElement_state b).
    by rewrite codegenState_withKids.
  - apply templateAll_traverse; try apply hoistElement_kids.
    intros m kids Hm _. apply hoistElement_state.
    by rewrite codegenState_withKids.
  - apply templateAll_traverse; try apply cacheElement_kids.
    intros m kids Hm _. apply cacheElement_state.
    by rewrite codegenState_withKids.
Qed.

Lemma runPasses_state (passes : list Pass) (b : bool) (n : TNode) :
  templateAll (codegenState b) n = true ->
  templateAll (codegenState (b || existsb isLower passes))
    (runPasses P passes n) = true.
Proof.
  unfold runPasses. revert b n.
  induction passes as [|pass passes IH]; intros b n Hn; simpl.
  - by rewrite orb_false_r.
  - rewrite orb_assoc. by apply IH, runPass_state.
Qed.

Lemma codegenState_compiledAway (b : bool) (n : TNode) :
  codegenState b n = true -> templateCompiledAway n = true.
Proof.
  destruct n; try done. simpl.
  repeat match goal with
         | |- context [match ?x with _ => _ end] => destruct x; try done
         end.
Qed.

(** The passes keep every node inside its interface of index.ts. *)
Lemma forallb_isA_kinds (kinds : list NodeTypes.t) (l l' : list TNode) :
  map typeOf l' = map typeOf l ->
  forallb (isA kinds) l' = forallb (isA kinds) l.
Proof.
  revert l'. induction l as [|a l IH]; intros [|a' l'] H; try done.
  simpl in *. injection H as Ha Hl. unfold isA at 1 3.
  by rewrite Ha, (IH l').
Qed.

Lemma conforms_withKids (n : TNode) (kids : list TNode) :
  map typeOf kids = map typeOf (templateKids n) ->
  conforms U (withKids n kids) = conforms U n.
Proof.
  destruct n; try done; simpl; intros H;
    by rewrite (forallb_isA_kinds _ _ _ H).
Qed.

Lemma conforms_setCodegenNode (c n : TNode) :
  conforms U n = true ->
  match tagTypeOf n with
  | Some ElementTypes.ELEMENT =>
      isA [NodeTypes.VNODE_CALL; NodeTypes.SIMPLE_EXPRESSION;
           NodeTypes.JS_CACHE_EXPRESSION] c
  | Some ElementTypes.COMPONENT =>
      isA [NodeTypes.VNODE_CALL; NodeTypes.JS_CACHE_EXPRESSION] c
  | Some ElementTypes.SLOT =>
      isRenderSlotCall U c || isA [NodeTypes.JS_CACHE_EXPRESSION] c
  | Some ElementTypes.TEMPLATE => false
  | None => true
  end = true ->
  conforms U (setCodegenNode c n) = true.
Proof.
  destruct n; try done. simpl.
  intros [Hkids Htag]%andb_prop Hc. rewrite Hkids. simpl.
  match goal with
  | |- match ?t with _ => _ end = true => destruct t; try done
  end; apply andb_prop in Htag as [_ Hssr]; by rewrite Hc.
Qed.

Lemma isA_kind (kinds : list NodeTypes.t) (c : TNode) (k : NodeTypes.t) :
  typeOf c = k -> NodeTypes.among kinds k = true -> isA kinds c = true.
Proof. by intros <-. Qed.

Lemma template_with_codegenNode_does_not_conform
    l ns tag isSelfClosing props children (c : TNode) ssr :
  conforms U (ElementNode l ns tag ElementTypes.TEMPLATE isSelfClosing props
                children (Some c) ssr) = false.
Proof. simpl. apply andb_false_r. Qed.

Ltac transform_cases :=
  repeat match goal with
         | |- context [match ?x with _ => _ end] =>
             first [ is_var x
                   | lazymatch x with
                     | isStaticNode _ _ => idtac
                     | isOnce _ _ => idtac
                     end ];
             destruct x
         end.

Lemma transforms_conform (n : TNode) :
  policyKinds P U -> conforms U n = true ->
  conforms U (lowerElement P n) = true
  /\ conforms U (hoistElement P n) = true
  /\ conforms U (cacheElement P n) = true.
Proof.
  intros (Hv & Hr & Href & Hcache) Hn.
  unfold lowerElement, hoistElement, cacheElement.
  destruct n; try done.
  split; [|split]; transform_cases; try exact Hn;
    try (rewrite template_with_codegenNode_does_not_conform in Hn;
         discriminate Hn);
    apply conforms_setCodegenNode; try exact Hn; cbn [tagTypeOf];
    transform_cases;
    try (rewrite template_with_codegenNode_does_not_conform in Hn;
         discriminate Hn);
    first [ by rewrite Hr
          | by apply (isA_kind _ _ _ (Hv _))
          | by apply (isA_kind _ _ _ (Href _))
          | by apply (isA_kind _ _ _ (Hcache _))
          | by rewrite (isA_kind _ _ _ (Hcache _)), ?orb_true_r ].
Qed.

Lemma runPass_conforms (pass : Pass) (n : TNode) :
  policyKinds P U ->
  templateAll (conforms U) n = true ->
  templateAll (conforms U) (runPass P pass n) = true.
Proof.
  intros HP. destruct pass; simpl; [| | |done].
  - apply templateAll_traverse; try apply lowerElement_kids.
    intros m kids Hm Hk. apply transforms_conform; [done|].
    by rewrite conforms_withKids.
  - apply templateAll_traverse; try apply hoistElement_kids.
    intros m kids Hm Hk. apply transforms_conform; [done|].
    by rewrite conforms_withKids.
  - apply templateAll_traverse; try apply cacheElement_kids.
    intros m kids Hm Hk. apply transforms_conform; [done|].
    by rewrite conforms_withKids.
Qed.

Lemma runPasses_conforms (passes : list Pass) (n : TNode) :
  policyKinds P U ->
  templateAll (conforms U) n = true ->
  templateAll (conforms U) (runPasses P passes n) = true.
Proof.
  intros HP. unfold runPasses. revert n.
  induction passes as [|pass passes IH]; intros n Hn; simpl; [done|].
  by apply IH, runPass_conforms.
Qed.


End PassFacts.

Section PassSamples.
Import AST Phases.


End PassSamples.
